(** * basis_set_exchange.fileio: the JSON file layer

    A shallow embedding of [basis_set_exchange/fileio.py]: the JSON store
    accessor ([_read_plain_json], [_write_plain_json] and the six named entry
    points), the directory classifier ([get_all_filelist]) and the notes
    reader ([read_notes_file]).

    Modelling choices.
    - Python values are the JSON-shaped fragment: None, booleans, integers,
      floats, strings, lists and dictionaries.  A dictionary is an
      association list in insertion order (the order [json.dump] writes).
      A float is represented by the decimal literal that denotes it; no
      arithmetic is done on floats.
    - A Python [str] is represented by its UTF-8 bytes, so Rocq's [string]
      serves both for text and for file contents.  For the JSON accessor
      the content of a file is its text: the statements about it speak of
      files that read as text, and the decoding and the line-ending
      conventions of text mode lie below [json.load].  The notes reader
      hands the content itself to its caller, so its read goes through
      text mode: the bytes are decoded as UTF-8, which is taken to be the
      encoding of the locale, and every carriage return, alone or before
      a line feed, becomes a line feed.
    - Exceptions are values of [exn]; a computation that can raise returns
      [exn + A].  [raise ... from ex] records [ex] as the cause.
    - The file system seen through [os.path.isfile] and [open] is a finite
      map from path strings to inodes, threaded through an [io] monad that
      also logs every system call.  Opening a directory for writing is the
      one failure of the operating system that is modelled, and a path
      names a file by its spelling: two spellings of one path, and links,
      are not modelled.
    - The file system seen through [os.walk] is the tree of entries below
      the directory walked.  [posixpath.join], [normpath], [abspath],
      [commonprefix] and [relpath] follow CPython's [posixpath] on strings.
    - The standard library's [json] and [bz2] modules and the repository's
      own [sort] module (which is not part of the sources at hand) are
      interfaces: the code is verified against any implementation, and
      reference implementations make it run on concrete inputs. *)

From Stdlib Require Import String Ascii List ZArith Bool Lia.
From Stdlib Require Import DecimalString.
From Stdlib Require DecimalFacts DecimalPos DecimalN.
From stdpp Require Import base strings gmap list.
Import ListNotations.
Local Open Scope string_scope.
Set Warnings "-register-all,-abstract-large-number".
#[local] Arguments String.append !_ _ / : simpl nomatch.

(** ** Strings as Python uses them *)

(** [s.endswith(suffix)]: some suffix of [s] is [suffix]. *)
Fixpoint endswith (s suffix : string) : bool :=
  String.eqb s suffix
  || match s with
     | EmptyString => false
     | String _ s' => endswith s' suffix
     end.

(** [s.startswith(p)]. *)
Fixpoint startswith (s p : string) : bool :=
  match p, s with
  | EmptyString, _ => true
  | String c p', String d s' => Ascii.eqb c d && startswith s' p'
  | String _ _, EmptyString => false
  end.

(** [needle in haystack] on two strings: substring search. *)
Fixpoint str_contains (haystack needle : string) : bool :=
  startswith haystack needle
  || match haystack with
     | EmptyString => false
     | String _ h' => str_contains h' needle
     end.

(** ** Python values and exceptions *)

Inductive pyval : Type :=
| PyNone
| PyBool (b : bool)
| PyInt (n : Z)
| PyFloat (literal : string)
| PyStr (s : string)
| PyList (items : list pyval)
| PyDict (items : list (string * pyval)).

Inductive exn : Type :=
| FileNotFoundError (msg : string)
| IsADirectoryError (msg : string)
| OSError (msg : string)
| JSONDecodeError (msg : string)
| TypeError (msg : string)
| ValueError (msg : string)
| RuntimeError (msg : string) (cause : option exn)
| UnicodeDecodeError (msg : string).

(** The name Python prints for the type of a value, as in the message of
    the TypeError raised by [in]. *)
Definition type_name (v : pyval) : string :=
  match v with
  | PyNone => "NoneType"
  | PyBool _ => "bool"
  | PyInt _ => "int"
  | PyFloat _ => "float"
  | PyStr _ => "str"
  | PyList _ => "list"
  | PyDict _ => "dict"
  end.

Definition is_str (key : string) (v : pyval) : bool :=
  match v with
  | PyStr s => String.eqb s key
  | _ => false
  end.

(** [key in container] for a string [key]: key membership on a dictionary,
    element membership on a list, substring search on a string, and a
    TypeError on everything else. *)
Definition py_in (key : string) (container : pyval) : exn + bool :=
  match container with
  | PyDict items => inr (existsb (String.eqb key) (map fst items))
  | PyList items => inr (existsb (is_str key) items)
  | PyStr s => inr (str_contains s key)
  | v => inl (TypeError ("argument of type '" +:+ type_name v +:+ "' is not iterable"))
  end.

(** ** The file system and the io monad *)

Inductive inode : Type :=
| RegularFile (data : string)
| Directory.

Inductive syscall : Type :=
| SysIsFile (path : string)
| SysOpenRead (path : string)
| SysOpenWrite (path : string)
| SysRead (path : string)
| SysWrite (path : string).

Record world : Type := World {
  files : gmap string inode;
  log : list syscall
}.

Definition io (A : Type) : Type := world -> (exn + A) * world.

Definition ret {A} (a : A) : io A := fun w => (inr a, w).
Definition raise {A} (e : exn) : io A := fun w => (inl e, w).
Definition bind {A B} (m : io A) (k : A -> io B) : io B :=
  fun w =>
    match m w with
    | (inl e, w') => (inl e, w')
    | (inr a, w') => k a w'
    end.
Definition lift {A} (r : exn + A) : io A := fun w => (r, w).
Definition emit (c : syscall) : io unit :=
  fun w => (inr tt, World (files w) (log w ++ [c])%list).

Notation "'let*' x := m 'in' k" := (bind m (fun x => k))
  (at level 10, x name, m at level 100, k at level 200, only parsing).

(** [try: body except JSONDecodeError as ex: handler ex]: only that one
    exception class is caught. *)
Definition try_except_JSONDecodeError {A} (body : io A) (handler : exn -> io A) : io A :=
  fun w =>
    match body w with
    | (inl (JSONDecodeError m), w') => handler (JSONDecodeError m) w'
    | r => r
    end.

Definition isfile (fs : gmap string inode) (path : string) : bool :=
  match fs !! path with
  | Some (RegularFile _) => true
  | _ => false
  end.

(** [os.path.isfile(path)] *)
Definition os_path_isfile (path : string) : io bool :=
  let* _ := emit (SysIsFile path) in
  fun w => (inr (isfile (files w) path), w).

(** An open file object: the path it was opened on, and whether the
    bz2 codec sits between the caller and the bytes. *)
Record file_object : Type := FileObject {
  fo_path : string;
  fo_bz2 : bool
}.

Definition open_for_reading (path : string) (bz : bool) : io file_object :=
  let* _ := emit (SysOpenRead path) in
  fun w =>
    match files w !! path with
    | Some (RegularFile _) => (inr (FileObject path bz), w)
    | Some Directory => (inl (IsADirectoryError path), w)
    | None => (inl (FileNotFoundError path), w)
    end.

(** Opening for writing creates the file or truncates it. *)
Definition open_for_writing (path : string) (bz : bool) : io file_object :=
  let* _ := emit (SysOpenWrite path) in
  fun w =>
    match files w !! path with
    | Some Directory => (inl (IsADirectoryError path), w)
    | _ => (inr (FileObject path bz),
            World (<[path := RegularFile ""]> (files w)) (log w))
    end.

(** [open(path, 'r')] *)
Definition open_r (path : string) : io file_object := open_for_reading path false.
(** [bz2.open(path, 'rt')] *)
Definition bz2_open_rt (path : string) : io file_object := open_for_reading path true.
(** [codecs.open(path, 'w', 'utf-8')] *)
Definition codecs_open_w (path : string) : io file_object := open_for_writing path false.
(** [bz2.open(path, 'wt')] *)
Definition bz2_open_wt (path : string) : io file_object := open_for_writing path true.

(** ** Text mode *)

Definition CR : ascii := "013"%char.
Definition LF : ascii := "010"%char.

(** The byte [c] lies between [lo] and [hi]. *)
Definition byte_in (lo hi : N) (c : ascii) : bool :=
  (lo <=? N_of_ascii c)%N && (N_of_ascii c <=? hi)%N.

Definition continuation (c : ascii) : bool := byte_in 128 191 c.

(** The bytes are well-formed UTF-8, as the strict decoder demands: no
    stray or missing continuation byte, no overlong form, no surrogate and
    nothing above U+10FFFF. *)
Fixpoint utf8_valid (s : string) : bool :=
  match s with
  | EmptyString => true
  | String c0 r0 =>
      if byte_in 0 127 c0 then utf8_valid r0
      else
        match r0 with
        | EmptyString => false
        | String c1 r1 =>
            if byte_in 194 223 c0 then continuation c1 && utf8_valid r1
            else
              match r1 with
              | EmptyString => false
              | String c2 r2 =>
                  if byte_in 224 239 c0
                  then (if byte_in 224 224 c0 then byte_in 160 191 c1
                        else if byte_in 237 237 c0 then byte_in 128 159 c1
                        else continuation c1)
                       && continuation c2 && utf8_valid r2
                  else
                    match r2 with
                    | EmptyString => false
                    | String c3 r3 =>
                        byte_in 240 244 c0
                        && (if byte_in 240 240 c0 then byte_in 144 191 c1
                            else if byte_in 244 244 c0 then byte_in 128 143 c1
                            else continuation c1)
                        && continuation c2 && continuation c3 && utf8_valid r3
                    end
              end
        end
  end.

(** Universal newlines, as a file opened with [newline=None] reads: a
    carriage return followed by a line feed, and a carriage return alone,
    become one line feed. *)
Fixpoint universal_newlines (s : string) : string :=
  match s with
  | EmptyString => EmptyString
  | String c r =>
      if Ascii.eqb c CR
      then match r with
           | String d r' =>
               if Ascii.eqb d LF then String LF (universal_newlines r')
               else String LF (universal_newlines r)
           | EmptyString => String LF EmptyString
           end
      else String c (universal_newlines r)
  end.

(** What [read()] makes of the bytes of a file opened by [open(path, 'r')]. *)
Definition text_mode (data : string) : exn + string :=
  if utf8_valid data then inr (universal_newlines data)
  else inl (UnicodeDecodeError "'utf-8' codec can't decode bytes").

(** ** Library interfaces *)

(** The [bz2] codec.  Only a bz2 stream decompresses ([None] otherwise),
    and decompression undoes compression. *)
Class Bz2 : Type := {
  bz2_compress : string -> string;
  bz2_decompress : string -> option string;
  bz2_roundtrip : forall data, bz2_decompress (bz2_compress data) = Some data
}.

(** The [json] module: [json.loads s], which returns the document or
    the message of the JSONDecodeError it raises, and
    [json.dumps(js, indent=indent, ensure_ascii=False)], the only way the
    code serialises. *)
Class Json : Type := {
  json_loads : string -> string + pyval;
  json_dumps : pyval -> nat -> string
}.

(** The repository's [sort] module: the two canonical orderings. *)
Class Sort : Type := {
  sort_basis_dict : pyval -> pyval;
  sort_references_dict : pyval -> pyval
}.

Section FileIO.
Context `{Bz2} `{Json} `{Sort}.

(** What reading [data] through a file object yields: the bytes, or
    what they decompress to; bytes that are no bz2 stream raise OSError. *)
Definition decoded (bz : bool) (data : string) : exn + string :=
  if bz
  then match bz2_decompress data with
       | Some text => inr text
       | None => inl (OSError "Invalid data stream")
       end
  else inr data.

(** What the stream behind a file object delivers when it is read to its
    end. *)
Definition f_read (f : file_object) : io string :=
  let* _ := emit (SysRead (fo_path f)) in
  fun w =>
    match files w !! fo_path f with
    | Some (RegularFile data) => (decoded (fo_bz2 f) data, w)
    | _ => (inl (OSError (fo_path f)), w)
    end.

(** [f.read()] on a file that [open(path, 'r')] opened. *)
Definition f_read_text (f : file_object) : io string :=
  let* data := f_read f in
  lift (text_mode data).

(** [f.write(text)] followed by the close at the end of the with block. *)
Definition f_write (f : file_object) (text : string) : io unit :=
  let* _ := emit (SysWrite (fo_path f)) in
  fun w =>
    let data := if fo_bz2 f then bz2_compress text else text in
    (inr tt, World (<[fo_path f := RegularFile data]> (files w)) (log w)).

(** [json.load(f)]: the parser is given the text of the file. *)
Definition json_load (f : file_object) : io pyval :=
  let* text := f_read f in
  match json_loads text with
  | inl msg => raise (JSONDecodeError msg)
  | inr js => ret js
  end.

(** [json.dump(js, f, indent=indent, ensure_ascii=False)] *)
Definition json_dump (js : pyval) (f : file_object) (indent : nat) : io unit :=
  f_write f (json_dumps js indent).

(** ** The JSON store accessor *)

Definition _read_plain_json (file_path : string) (check_bse : bool) : io pyval :=
  let* isf := os_path_isfile file_path in
  let* _ :=
    if negb isf
    then raise (FileNotFoundError
                  ("JSON file '" +:+ file_path +:+
                   "' does not exist, is not readable, or is not a file"))
    else ret tt in
  let* js :=
    try_except_JSONDecodeError
      (if endswith file_path ".bz2"
       then let* f := bz2_open_rt file_path in json_load f
       else let* f := open_r file_path in json_load f)
      (fun ex =>
         raise (RuntimeError ("File " +:+ file_path +:+ " contains JSON errors")
                             (Some ex))) in
  let* _ :=
    if check_bse
    then let* present := lift (py_in "molssi_bse_schema" js) in
         if negb present
         then raise (RuntimeError
                       ("File " +:+ file_path +:+ " does not appear to be a BSE JSON file")
                       None)
         else ret tt
    else ret tt in
  ret js.

Definition _write_plain_json (file_path : string) (js : pyval) : io unit :=
  if endswith file_path ".bz2"
  then let* f := bz2_open_wt file_path in json_dump js f 2
  else let* f := codecs_open_w file_path in json_dump js f 2.

Definition read_json_basis (file_path : string) : io pyval :=
  _read_plain_json file_path true.

Definition read_schema (file_path : string) : io pyval :=
  _read_plain_json file_path false.

Definition read_references (file_path : string) : io pyval :=
  _read_plain_json file_path true.

Definition read_metadata (file_path : string) : io pyval :=
  _read_plain_json file_path false.

Definition write_json_basis (file_path : string) (bs : pyval) : io unit :=
  _write_plain_json file_path (sort_basis_dict bs).

Definition write_references (file_path : string) (refs : pyval) : io unit :=
  _write_plain_json file_path (sort_references_dict refs).

(** ** The notes reader *)

Definition read_notes_file (file_path : string) : io (option string) :=
  let* isf := os_path_isfile file_path in
  if negb isf
  then ret None
  else let* f := open_r file_path in
       let* text := f_read_text f in
       ret (Some text).

End FileIO.

(** ** The directory classifier *)

(** *** posixpath *)

Definition sep : ascii := "/"%char.

(** [posixpath.join(a, b)] *)
Definition path_join (a b : string) : string :=
  if startswith b "/" then b
  else if String.eqb a "" || endswith a "/" then a +:+ b
  else a +:+ "/" +:+ b.

(** [s.split('/')] *)
Fixpoint split_sep (s : string) : list string :=
  match s with
  | EmptyString => [""]
  | String c s' =>
      if Ascii.eqb c sep then "" :: split_sep s'
      else match split_sep s' with
           | h :: t => String c h :: t
           | [] => [String c ""]
           end
  end.

(** ['/' * n] *)
Fixpoint slashes (n : nat) : string :=
  match n with
  | O => ""
  | S n' => String sep (slashes n')
  end.

(** The number of leading slashes [posixpath.normpath] keeps: POSIX allows
    one or two, and treats three or more as one. *)
Definition initial_slashes (path : string) : nat :=
  if startswith path "/"
  then if startswith path "//" && negb (startswith path "///") then 2 else 1
  else 0.

(** One turn of the loop of [posixpath.normpath] over the components. *)
Definition normpath_step (slashes0 : nat) (new_comps : list string) (comp : string)
  : list string :=
  if String.eqb comp "" || String.eqb comp "." then new_comps
  else if negb (String.eqb comp "..")
          || (Nat.eqb slashes0 0 && match new_comps with [] => true | _ => false end)
          || match last new_comps with Some l => String.eqb l ".." | None => false end
       then (new_comps ++ [comp])%list
       else removelast new_comps.

(** [posixpath.normpath(path)] *)
Definition normpath (path : string) : string :=
  if String.eqb path "" then "."
  else
    let n := initial_slashes path in
    let comps := fold_left (normpath_step n) (split_sep path) [] in
    let path' := slashes n +:+ String.concat "/" comps in
    if String.eqb path' "" then "." else path'.

(** [posixpath.abspath(path)], with [cwd] what [os.getcwd()] returns. *)
Definition abspath (cwd path : string) : string :=
  if startswith path "/" then normpath path
  else normpath (path_join cwd path).

(** Python's order on lists of strings. *)
Fixpoint list_lt (a b : list string) : bool :=
  match a, b with
  | [], [] => false
  | [], _ :: _ => true
  | _ :: _, [] => false
  | x :: a', y :: b' =>
      match String.compare x y with
      | Lt => true
      | Gt => false
      | Eq => list_lt a' b'
      end
  end.

(** The loop of [posixpath.commonprefix]: the part of [s1] before its
    first difference from [s2]. *)
Fixpoint common_run (s1 s2 : list string) : list string :=
  match s1, s2 with
  | c :: s1', d :: s2' => if String.eqb c d then c :: common_run s1' s2' else []
  | _, _ => []
  end.

(** [posixpath.commonprefix([a, b])]: the loop runs over the least and
    the greatest of the two. *)
Definition commonprefix (a b : list string) : list string :=
  let s1 := if list_lt b a then b else a in
  let s2 := if list_lt a b then b else a in
  common_run s1 s2.

Definition nonempty (s : string) : bool := negb (String.eqb s "").

(** [posixpath.relpath(path, start)] *)
Definition relpath (cwd path start : string) : exn + string :=
  if String.eqb path "" then inl (ValueError "no path specified")
  else
    let start_list := List.filter nonempty (split_sep (abspath cwd start)) in
    let path_list := List.filter nonempty (split_sep (abspath cwd path)) in
    let i := length (commonprefix start_list path_list) in
    let rel_list := (repeat ".." (length start_list - i) ++ skipn i path_list)%list in
    match rel_list with
    | [] => inr "."
    | first :: rest => inr (fold_left path_join rest first)
    end.

(** *** os.walk *)

(** What a directory holds: files and sub-directories, in the order the
    operating system lists them. *)
Inductive entry : Type :=
| FileEntry (name : string)
| DirEntry (name : string) (children : list entry).

Definition file_names (entries : list entry) : list string :=
  flat_map (fun e => match e with FileEntry n => [n] | DirEntry _ _ => [] end) entries.

Definition dir_names (entries : list entry) : list string :=
  flat_map (fun e => match e with FileEntry _ => [] | DirEntry n _ => [n] end) entries.

(** The walk below one entry of the directory [top]: nothing for a file;
    for a sub-directory, that directory (under its joined path) and then
    each of its own sub-directories in turn. *)
Fixpoint walk_entry (top : string) (e : entry)
  : list (string * list string * list string) :=
  match e with
  | FileEntry _ => []
  | DirEntry n children =>
      let new_path := path_join top n in
      (new_path, dir_names children, file_names children)
      :: flat_map (walk_entry new_path) children
  end.

(** [os.walk(top)], top-down, where [entries] is what [top] holds. *)
Definition os_walk (top : string) (entries : list entry)
  : list (string * list string * list string) :=
  (top, dir_names entries, file_names entries) :: flat_map (walk_entry top) entries.

(** *** get_all_filelist *)

Record filelists : Type := FileLists {
  all_meta : list string;
  all_table : list string;
  all_element : list string;
  all_component : list string
}.

Definition special : list string := ["METADATA.json"; "REFERENCES.json"].

(** The body of the inner loop, for one [basename] of the directory [root]. *)
Definition classify (cwd data_dir root : string) (acc : filelists) (basename : string)
  : exn + filelists :=
  if existsb (String.eqb basename) special then inr acc
  else
    let fpath := path_join root basename in
    match relpath cwd fpath data_dir with
    | inl e => inl e
    | inr fpath =>
        if endswith basename ".metadata.json" then
          inr (FileLists (all_meta acc ++ [fpath])%list (all_table acc)
                         (all_element acc) (all_component acc))
        else if endswith basename ".table.json" then
          inr (FileLists (all_meta acc) (all_table acc ++ [fpath])%list
                         (all_element acc) (all_component acc))
        else if endswith basename ".element.json" then
          inr (FileLists (all_meta acc) (all_table acc)
                         (all_element acc ++ [fpath])%list (all_component acc))
        else if endswith basename ".json" then
          inr (FileLists (all_meta acc) (all_table acc)
                         (all_element acc) (all_component acc ++ [fpath])%list)
        else inr acc
    end.

(** A for loop whose body can raise. *)
Fixpoint for_each {A S : Type} (body : S -> A -> exn + S) (xs : list A) (s : S) : exn + S :=
  match xs with
  | [] => inr s
  | x :: xs' =>
      match body s x with
      | inl e => inl e
      | inr s' => for_each body xs' s'
      end
  end.

(** The body of the outer loop, for one triple of the walk. *)
Definition visit (cwd data_dir : string) (acc : filelists)
    (x : string * list string * list string) : exn + filelists :=
  let '(root, dirs, files) := x in
  for_each (classify cwd data_dir root) files acc.

(** [get_all_filelist(data_dir)], where [tree] is what lies under
    [data_dir] and [cwd] is the working directory of the process. *)
Definition get_all_filelist (cwd : string) (tree : list entry) (data_dir : string)
  : exn + (list string * list string * list string * list string) :=
  match for_each (visit cwd data_dir) (os_walk data_dir tree) (FileLists [] [] [] []) with
  | inl e => inl e
  | inr acc => inr (all_meta acc, all_table acc, all_element acc, all_component acc)
  end.

(** *** Notions the classifier statements use *)

Inductive category : Type := Metadata | Table | Element | Component.

Definition category_eqb (a b : category) : bool :=
  match a, b with
  | Metadata, Metadata | Table, Table | Element, Element | Component, Component => true
  | _, _ => false
  end.

(** The classification table as the spec words it: the two reserved
    names are skipped; otherwise the first matching suffix decides, in the
    order .metadata.json, .table.json, .element.json, .json; a name that
    matches none is excluded. *)
Definition spec_category (basename : string) : option category :=
  if String.eqb basename "METADATA.json" || String.eqb basename "REFERENCES.json" then None
  else if endswith basename ".metadata.json" then Some Metadata
  else if endswith basename ".table.json" then Some Table
  else if endswith basename ".element.json" then Some Element
  else if endswith basename ".json" then Some Component
  else None.

(** The test for the two reserved names. *)
Definition reserved (basename : string) : bool :=
  String.eqb basename "METADATA.json" || String.eqb basename "REFERENCES.json".

Definition in_category (c : category) (basename : string) : bool :=
  match spec_category basename with
  | Some c' => category_eqb c' c
  | None => false
  end.

Fixpoint has_sep (s : string) : bool :=
  match s with
  | EmptyString => false
  | String c s' => Ascii.eqb c sep || has_sep s'
  end.

(** What the operating system accepts as the name of a directory entry:
    not empty, not one of the two dot names, and without a slash. *)
Definition valid_name (n : string) : bool :=
  nonempty n && negb (String.eqb n ".") && negb (String.eqb n "..") && negb (has_sep n).

Fixpoint valid_entry (e : entry) : bool :=
  match e with
  | FileEntry n => valid_name n
  | DirEntry n children => valid_name n && forallb valid_entry children
  end.

Definition valid_tree (tree : list entry) : bool := forallb valid_entry tree.

(** The files below one entry in the order [os.walk] reaches them, each
    with the names of the directories that lead to it from the root. *)
Fixpoint entry_files (dirs : list string) (e : entry) : list (list string * string) :=
  match e with
  | FileEntry _ => []
  | DirEntry n children =>
      (map (pair (dirs ++ [n])) (file_names children)
       ++ flat_map (entry_files (dirs ++ [n])) children)%list
  end.

Definition tree_files (tree : list entry) : list (list string * string) :=
  (map (pair []) (file_names tree) ++ flat_map (entry_files []) tree)%list.

(** The path of a file relative to the root: the directory names and the
    basename, joined by slashes. *)
Definition relative_path (f : list string * string) : string :=
  String.concat "/" (fst f ++ [snd f]).

(** The relative paths of the files of one category, in walk order. *)
Definition bucket (c : category) (fs : list (list string * string)) : list string :=
  map relative_path (List.filter (fun f => in_category c (snd f)) fs).

(** Where [classify] puts a path once the category is known. *)
Definition place (c : option category) (fpath : string) (acc : filelists) : filelists :=
  match c with
  | Some Metadata =>
      FileLists (all_meta acc ++ [fpath]) (all_table acc) (all_element acc) (all_component acc)
  | Some Table =>
      FileLists (all_meta acc) (all_table acc ++ [fpath]) (all_element acc) (all_component acc)
  | Some Element =>
      FileLists (all_meta acc) (all_table acc) (all_element acc ++ [fpath]) (all_component acc)
  | Some Component =>
      FileLists (all_meta acc) (all_table acc) (all_element acc) (all_component acc ++ [fpath])
  | None => acc
  end.

(** The four lists after the files [fs] have been classified. *)
Definition extend (acc : filelists) (fs : list (list string * string)) : filelists :=
  FileLists (all_meta acc ++ bucket Metadata fs) (all_table acc ++ bucket Table fs)
            (all_element acc ++ bucket Element fs) (all_component acc ++ bucket Component fs).

(** The root [os.walk] reports for the directory reached from [start]
    through the directories [names]. *)
Definition joined (start : string) (names : list string) : string :=
  fold_left path_join names start.

(** The components of a path that [relpath] keeps. *)
Definition comps (s : string) : list string := List.filter nonempty (split_sep s).

Definition good (x : string) : Prop := nonempty x = true /\ has_sep x = false.

(** What [abspath] normalises. *)
Definition anchored (cwd path : string) : string :=
  if startswith path "/" then path else path_join cwd path.

Definition slash_all (rest : list string) : string :=
  fold_right (fun r acc => "/" +:+ r +:+ acc) "" rest.

Fixpoint last_char (s : string) : option ascii :=
  match s with
  | EmptyString => None
  | String c EmptyString => Some c
  | String _ s' => last_char s'
  end.

(** Induction on directory entries that reaches the children. *)
Fixpoint entry_ind_nested (P : entry -> Prop)
    (Hfile : forall n, P (FileEntry n))
    (Hdir : forall n children, Forall P children -> P (DirEntry n children))
    (e : entry) : P e :=
  match e with
  | FileEntry n => Hfile n
  | DirEntry n children =>
      Hdir n children
        ((fix all (l : list entry) : Forall P l :=
            match l with
            | [] => @List.Forall_nil _ P
            | x :: l' => @List.Forall_cons _ P x l' (entry_ind_nested P Hfile Hdir x) (all l')
            end) children)
  end.

(** The files [os.walk] yields, each with the root it is reported under,
    in the order the loops of [get_all_filelist] meet them. *)
Definition walked_files (top : string) (entries : list entry) : list (string * string) :=
  flat_map (fun x => map (pair (fst (fst x))) (snd x)) (os_walk top entries).

(** The tree of the spec's example. *)
Definition example_tree : list entry :=
  [FileEntry "a.element.json"; FileEntry "b.table.json"; FileEntry "c.metadata.json";
   FileEntry "d.json"; FileEntry "METADATA.json"; FileEntry "REFERENCES.json";
   DirEntry "sub" [FileEntry "e.element.json"]].

(** ** Reference implementations of the library interfaces

    The theorems below hold for every implementation of [Json], [Bz2] and
    [Sort].  The instances here make the code executable on concrete
    inputs. *)

(** *** A JSON codec, after Python's [json] module *)

Module RefJson.

Definition dquote : ascii := "034"%char.
Definition backslash : ascii := "092"%char.
Definition newline : ascii := "010"%char.

Definition hex_digit (n : nat) : ascii :=
  nth n ["0"; "1"; "2"; "3"; "4"; "5"; "6"; "7"; "8"; "9";
         "a"; "b"; "c"; "d"; "e"; "f"]%char "0"%char.

(** The replacement [ESCAPE_DCT] gives for one character when
    [ensure_ascii] is off: the two-character escapes, and a u-escape for
    the other control characters. *)
Definition escape_char (c : ascii) : string :=
  if Ascii.eqb c dquote then String backslash (String dquote "")
  else if Ascii.eqb c backslash then String backslash (String backslash "")
  else if Ascii.eqb c "008"%char then String backslash "b"
  else if Ascii.eqb c "012"%char then String backslash "f"
  else if Ascii.eqb c "010"%char then String backslash "n"
  else if Ascii.eqb c "013"%char then String backslash "r"
  else if Ascii.eqb c "009"%char then String backslash "t"
  else if Nat.ltb (nat_of_ascii c) 32
       then String backslash
              (String "u" (String "0" (String "0"
                 (String (hex_digit (nat_of_ascii c / 16))
                    (String (hex_digit (nat_of_ascii c mod 16)) "")))))
       else String c "".

Fixpoint escape (s : string) : string :=
  match s with
  | EmptyString => ""
  | String c s' => escape_char c +:+ escape s'
  end.

(** [encode_basestring] *)
Definition encode_basestring (s : string) : string :=
  String dquote (escape s +:+ String dquote "").

(** [int.__repr__] *)
Definition int_repr (n : Z) : string :=
  DecimalString.NilEmpty.string_of_int (Z.to_int n).

Fixpoint spaces (n : nat) : string :=
  match n with
  | O => ""
  | S n' => String " " (spaces n')
  end.

Definition newline_indent (indent level : nat) : string :=
  String newline (spaces (indent * level)).

(** [_iterencode] at nesting depth [level]. *)
Fixpoint iterencode (indent level : nat) (o : pyval) : string :=
  match o with
  | PyNone => "null"
  | PyBool true => "true"
  | PyBool false => "false"
  | PyInt n => int_repr n
  | PyFloat literal => literal
  | PyStr s => encode_basestring s
  | PyList [] => "[]"
  | PyList items =>
      "[" +:+ newline_indent indent (S level)
      +:+ String.concat ("," +:+ newline_indent indent (S level))
            (map (iterencode indent (S level)) items)
      +:+ newline_indent indent level +:+ "]"
  | PyDict [] => "{}"
  | PyDict items =>
      "{" +:+ newline_indent indent (S level)
      +:+ String.concat ("," +:+ newline_indent indent (S level))
            (map (fun kv => encode_basestring (fst kv) +:+ ": "
                            +:+ iterencode indent (S level) (snd kv)) items)
      +:+ newline_indent indent level +:+ "}"
  end.

Definition dumps (o : pyval) (indent : nat) : string := iterencode indent 0 o.

(** The decoder. *)

Definition is_ws (c : ascii) : bool :=
  Ascii.eqb c " " || Ascii.eqb c "009" || Ascii.eqb c "010" || Ascii.eqb c "013".

Fixpoint skip_ws (s : string) : string :=
  match s with
  | String c s' => if is_ws c then skip_ws s' else s
  | EmptyString => ""
  end.

Definition hex_val (c : ascii) : option nat :=
  let n := nat_of_ascii c in
  if Nat.leb 48 n && Nat.leb n 57 then Some (n - 48)
  else if Nat.leb 97 n && Nat.leb n 102 then Some (n - 87)
  else if Nat.leb 65 n && Nat.leb n 70 then Some (n - 55)
  else None.

(** The UTF-8 bytes of a code point.  A surrogate on its own has none:
    such strings are outside the fragment. *)
Definition utf8_encode (cp : nat) : option string :=
  if Nat.ltb cp 128 then Some (String (ascii_of_nat cp) "")
  else if Nat.ltb cp 2048 then
    Some (String (ascii_of_nat (192 + cp / 64))
            (String (ascii_of_nat (128 + cp mod 64)) ""))
  else if Nat.leb 55296 cp && Nat.leb cp 57343 then None
  else if Nat.ltb cp 65536 then
    Some (String (ascii_of_nat (224 + cp / 4096))
            (String (ascii_of_nat (128 + (cp / 64) mod 64))
               (String (ascii_of_nat (128 + cp mod 64)) "")))
  else
    Some (String (ascii_of_nat (240 + cp / 262144))
            (String (ascii_of_nat (128 + (cp / 4096) mod 64))
               (String (ascii_of_nat (128 + (cp / 64) mod 64))
                  (String (ascii_of_nat (128 + cp mod 64)) "")))).

(** The input after the character [c], if it starts with it. *)
Definition expect (c : ascii) (s : string) : option string :=
  match s with
  | String d r => if Ascii.eqb d c then Some r else None
  | EmptyString => None
  end.

(** [_decode_uXXXX]: four hexadecimal digits. *)
Definition decode_uXXXX (s : string) : option (nat * string) :=
  match s with
  | String h1 (String h2 (String h3 (String h4 rest))) =>
      match hex_val h1, hex_val h2, hex_val h3, hex_val h4 with
      | Some d1, Some d2, Some d3, Some d4 =>
          Some (((d1 * 16 + d2) * 16 + d3) * 16 + d4, rest)
      | _, _, _, _ => None
      end
  | _ => None
  end.

(** The code point a u-escape stands for, and how much of the input it
    takes: a high surrogate joins the low surrogate that follows it. *)
Definition decode_escape (uni : nat) (rest : string) : nat * string :=
  if Nat.leb 55296 uni && Nat.leb uni 56319 then
    match expect backslash rest with
    | Some rest1 =>
        match expect "u" rest1 with
        | Some rest' =>
            match decode_uXXXX rest' with
            | Some (uni2, rest'') =>
                if Nat.leb 56320 uni2 && Nat.leb uni2 57343
                then (65536 + (uni - 55296) * 1024 + (uni2 - 56320), rest'')
                else (uni, rest)
            | None => (uni, rest)
            end
        | None => (uni, rest)
        end
    | None => (uni, rest)
    end
  else (uni, rest).

Definition simple_escape (e : ascii) : option ascii :=
  if Ascii.eqb e dquote then Some dquote
  else if Ascii.eqb e backslash then Some backslash
  else if Ascii.eqb e "/" then Some "/"%char
  else if Ascii.eqb e "b" then Some "008"%char
  else if Ascii.eqb e "f" then Some "012"%char
  else if Ascii.eqb e "n" then Some "010"%char
  else if Ascii.eqb e "r" then Some "013"%char
  else if Ascii.eqb e "t" then Some "009"%char
  else None.

Definition prepend (pre : string) (r : option (string * string)) : option (string * string) :=
  match r with
  | Some (body, rest) => Some (pre +:+ body, rest)
  | None => None
  end.

(** [scanstring] in strict mode, from just after the opening quote: the
    decoded string and what follows the closing quote.  The fuel bounds
    the number of characters decoded. *)
Fixpoint scanstring_fuel (fuel : nat) (s : string) : option (string * string) :=
  match fuel with
  | O => None
  | S fuel' =>
      match s with
      | EmptyString => None
      | String c s' =>
          if Ascii.eqb c dquote then Some ("", s')
          else if Ascii.eqb c backslash then
            match s' with
            | EmptyString => None
            | String e s'' =>
                if Ascii.eqb e "u" then
                  match decode_uXXXX s'' with
                  | Some (uni, s3) =>
                      let (cp, s4) := decode_escape uni s3 in
                      match utf8_encode cp with
                      | Some bytes => prepend bytes (scanstring_fuel fuel' s4)
                      | None => None
                      end
                  | None => None
                  end
                else
                  match simple_escape e with
                  | Some d => prepend (String d "") (scanstring_fuel fuel' s'')
                  | None => None
                  end
            end
          else if Nat.ltb (nat_of_ascii c) 32 then None
          else prepend (String c "") (scanstring_fuel fuel' s')
      end
  end.

Definition scanstring (s : string) : option (string * string) :=
  scanstring_fuel (String.length s) s.

Definition is_digit (c : ascii) : bool :=
  Nat.leb 48 (nat_of_ascii c) && Nat.leb (nat_of_ascii c) 57.

Fixpoint span_digits (s : string) : string * string :=
  match s with
  | String c s' =>
      if is_digit c
      then let (ds, rest) := span_digits s' in (String c ds, rest)
      else ("", s)
  | EmptyString => ("", "")
  end.

Definition digits_to_Z (neg : bool) (ds : string) : option Z :=
  match DecimalString.NilEmpty.uint_of_string ds with
  | Some u => Some (if neg then Z.opp (Z.of_uint u) else Z.of_uint u)
  | None => None
  end.

(** The second group of [NUMBER_RE]: a point and at least one digit. *)
Definition scan_frac (s : string) : string * string :=
  match expect "." s with
  | Some r =>
      match span_digits r with
      | (EmptyString, _) => ("", s)
      | (fd, r') => (String "." fd, r')
      end
  | None => ("", s)
  end.

(** The third group: e or E, an optional sign, at least one digit. *)
Definition scan_exp (s : string) : string * string :=
  match s with
  | String c r =>
      if Ascii.eqb c "e" || Ascii.eqb c "E" then
        let (sign, r1) := match expect "+" r, expect "-" r with
                          | Some x, _ => ("+", x)
                          | None, Some x => ("-", x)
                          | None, None => ("", r)
                          end in
        match span_digits r1 with
        | (EmptyString, _) => ("", s)
        | (ed, r') => (String c (sign +:+ ed), r')
        end
      else ("", s)
  | EmptyString => ("", s)
  end.

(** [NUMBER_RE]: an optional sign, then 0 or a digit string with no
    leading zero, then an optional fraction and an optional exponent.
    Without either the number is an int, with one it is a float. *)
Definition scan_number (s : string) : option (pyval * string) :=
  let (neg, s1) := match expect "-" s with
                   | Some r => (true, r)
                   | None => (false, s)
                   end in
  let (ds, rest) := span_digits s1 in
  match ds with
  | EmptyString => None
  | String d ds' =>
      let (int_part, rest1) :=
        if Ascii.eqb d "0" then ("0", ds' +:+ rest) else (ds, rest) in
      let (frac, rest2) := scan_frac rest1 in
      let (exp, rest3) := scan_exp rest2 in
      if String.eqb frac "" && String.eqb exp ""
      then match digits_to_Z neg int_part with
           | Some n => Some (PyInt n, rest3)
           | None => None
           end
      else Some (PyFloat ((if neg then "-" else "") +:+ int_part +:+ frac +:+ exp), rest3)
  end.

Fixpoint strip_prefix (p s : string) : option string :=
  match p, s with
  | EmptyString, _ => Some s
  | String c p', String d s' => if Ascii.eqb c d then strip_prefix p' s' else None
  | String _ _, EmptyString => None
  end.

Definition literal (word : string) (v : pyval) (s : string) : option (pyval * string) :=
  match strip_prefix word s with
  | Some rest => Some (v, rest)
  | None => None
  end.

(** [scan_once], [JSONArray] and [JSONObject].  Every call consumes fuel;
    [loads] supplies enough for its whole input. *)
Fixpoint scan_once (fuel : nat) (s : string) {struct fuel} : option (pyval * string) :=
  match fuel with
  | O => None
  | S fuel' =>
      match s with
      | EmptyString => None
      | String c r =>
          if Ascii.eqb c dquote then
            match scanstring r with
            | Some (str, rest) => Some (PyStr str, rest)
            | None => None
            end
          else if Ascii.eqb c "[" then
            match expect "]" (skip_ws r) with
            | Some rest => Some (PyList [], rest)
            | None =>
                match json_array fuel' (skip_ws r) with
                | Some (items, rest) => Some (PyList items, rest)
                | None => None
                end
            end
          else if Ascii.eqb c "{" then
            match expect "}" (skip_ws r) with
            | Some rest => Some (PyDict [], rest)
            | None =>
                match json_object fuel' (skip_ws r) with
                | Some (pairs, rest) => Some (PyDict pairs, rest)
                | None => None
                end
            end
          else if Ascii.eqb c "n" then literal "ull" PyNone r
          else if Ascii.eqb c "t" then literal "rue" (PyBool true) r
          else if Ascii.eqb c "f" then literal "alse" (PyBool false) r
          else
            match scan_number s with
            | Some number => Some number
            | None =>
                if Ascii.eqb c "N" then literal "aN" (PyFloat "NaN") r
                else if Ascii.eqb c "I" then literal "nfinity" (PyFloat "Infinity") r
                else if Ascii.eqb c "-" then literal "Infinity" (PyFloat "-Infinity") r
                else None
            end
      end
  end
with json_array (fuel : nat) (s : string) {struct fuel} : option (list pyval * string) :=
  match fuel with
  | O => None
  | S fuel' =>
      match scan_once fuel' s with
      | None => None
      | Some (v, rest) =>
          match expect "]" (skip_ws rest) with
          | Some rest' => Some ([v], rest')
          | None =>
              match expect "," (skip_ws rest) with
              | Some rest' =>
                  match json_array fuel' (skip_ws rest') with
                  | Some (vs, rest'') => Some (v :: vs, rest'')
                  | None => None
                  end
              | None => None
              end
          end
      end
  end
with json_object (fuel : nat) (s : string) {struct fuel} : option (list (string * pyval) * string) :=
  match fuel with
  | O => None
  | S fuel' =>
      match expect dquote s with
      | None => None
      | Some r =>
          match scanstring r with
          | None => None
          | Some (key, rest) =>
              match expect ":" (skip_ws rest) with
              | None => None
              | Some rest1 =>
                  match scan_once fuel' (skip_ws rest1) with
                  | None => None
                  | Some (v, rest2) =>
                      match expect "}" (skip_ws rest2) with
                      | Some rest' => Some ([(key, v)], rest')
                      | None =>
                          match expect "," (skip_ws rest2) with
                          | Some rest' =>
                              match json_object fuel' (skip_ws rest') with
                              | Some (kvs, rest'') => Some ((key, v) :: kvs, rest'')
                              | None => None
                              end
                          | None => None
                          end
                      end
                  end
              end
          end
      end
  end.

(** [d[k] = v] on a dictionary in insertion order. *)
Fixpoint dict_set (k : string) (v : pyval) (d : list (string * pyval)) : list (string * pyval) :=
  match d with
  | [] => [(k, v)]
  | (k', v') :: t => if String.eqb k' k then (k, v) :: t else (k', v') :: dict_set k v t
  end.

(** The decoder collects an object's pairs and hands them to [dict]:
    a repeated key keeps its first place and its last value. *)
Fixpoint normalize (v : pyval) : pyval :=
  match v with
  | PyList items => PyList (map normalize items)
  | PyDict pairs =>
      PyDict (fold_left (fun d kv => dict_set (fst kv) (snd kv) d)
                        (map (fun kv => (fst kv, normalize (snd kv))) pairs) [])
  | _ => v
  end.

Definition loads (s : string) : string + pyval :=
  match scan_once (2 * String.length s + 2) (skip_ws s) with
  | None => inl "Expecting value"
  | Some (v, rest) =>
      match skip_ws rest with
      | EmptyString => inr (normalize v)
      | _ => inl "Extra data"
      end
  end.

(** *** Notions for the round trip through the codec *)

Fixpoint distinct (l : list string) : bool :=
  match l with
  | [] => true
  | x :: t => negb (existsb (String.eqb x) t) && distinct t
  end.

(** The documents the codec is exact on: no key occurs twice in a
    dictionary, and there is no float (how a float travels through text
    is a matter of floating-point conversion). *)
Fixpoint well_formed (v : pyval) : bool :=
  match v with
  | PyFloat _ => false
  | PyList items => forallb well_formed items
  | PyDict items =>
      distinct (map fst items) && forallb (fun kv => well_formed (snd kv)) items
  | _ => true
  end.

(** What may follow a number without being taken for part of it. *)
Definition number_ends (rest : string) : bool :=
  match rest with
  | EmptyString => true
  | String c _ =>
      negb (is_digit c) && negb (Ascii.eqb c ".") && negb (Ascii.eqb c "e")
      && negb (Ascii.eqb c "E")
  end.

(** Induction on values that reaches the items of lists and
    dictionaries. *)
Fixpoint pyval_ind_nested (P : pyval -> Prop)
    (HNone : P PyNone) (HBool : forall b, P (PyBool b)) (HInt : forall n, P (PyInt n))
    (HFloat : forall l, P (PyFloat l)) (HStr : forall s, P (PyStr s))
    (HList : forall items, Forall P items -> P (PyList items))
    (HDict : forall items, Forall (fun kv => P (snd kv)) items -> P (PyDict items))
    (v : pyval) : P v :=
  match v with
  | PyNone => HNone
  | PyBool b => HBool b
  | PyInt n => HInt n
  | PyFloat l => HFloat l
  | PyStr s => HStr s
  | PyList items =>
      HList items
        ((fix all (l : list pyval) : Forall P l :=
            match l with
            | [] => @List.Forall_nil _ P
            | x :: l' =>
                @List.Forall_cons _ P x l'
                  (pyval_ind_nested P HNone HBool HInt HFloat HStr HList HDict x) (all l')
            end) items)
  | PyDict items =>
      HDict items
        ((fix all (l : list (string * pyval)) : Forall (fun kv => P (snd kv)) l :=
            match l with
            | [] => @List.Forall_nil _ (fun kv => P (snd kv))
            | kv :: l' =>
                @List.Forall_cons _ (fun kv => P (snd kv)) kv l'
                  (pyval_ind_nested P HNone HBool HInt HFloat HStr HList HDict (snd kv))
                  (all l')
            end) items)
  end.

Definition no_digit_ahead (rest : string) : bool :=
  match rest with
  | EmptyString => true
  | String c _ => negb (is_digit c)
  end.

(** A character that can open a value: no white space, no closing
    bracket, no comma. *)
Definition value_start (c : ascii) : bool :=
  negb (is_ws c) && negb (Ascii.eqb c "]") && negb (Ascii.eqb c "}")
  && negb (Ascii.eqb c ",").

Definition starts_value (s : string) : Prop :=
  exists c t, s = String c t /\ value_start c = true.

(** What the decoder makes of an encoded value followed by [rest]. *)
Definition parses (indent : nat) (v : pyval) : Prop :=
  forall level rest fuel,
    well_formed v = true ->
    String.length (iterencode indent level v) < fuel ->
    number_ends rest = true ->
    scan_once fuel (iterencode indent level v +:+ rest) = Some (v, rest).

Definition item_separator (indent level : nat) : string :=
  "," +:+ newline_indent indent level.

Definition member (indent level : nat) (kv : string * pyval) : string :=
  encode_basestring (fst kv) +:+ ": " +:+ iterencode indent level (snd kv).

End RefJson.

#[export] Instance ref_json : Json := {
  json_loads := RefJson.loads;
  json_dumps := RefJson.dumps
}.

(** *** A stand-in for the bz2 stream format

    Enough of the format to tell a stream from plain text: the magic
    bytes the real format starts with, then the payload. *)

Module RefBz2.

Definition magic : string := "BZh9".

Definition compress (data : string) : string := magic +:+ data.

Definition decompress (data : string) : option string :=
  RefJson.strip_prefix magic data.

Lemma roundtrip data : decompress (compress data) = Some data.
Proof. reflexivity. Qed.

End RefBz2.

#[export] Instance ref_bz2 : Bz2 := {
  bz2_compress := RefBz2.compress;
  bz2_decompress := RefBz2.decompress;
  bz2_roundtrip := RefBz2.roundtrip
}.

(** *** A canonical ordering *)

Module RefSort.

Fixpoint insert_sorted (k : string) (v : pyval) (d : list (string * pyval))
  : list (string * pyval) :=
  match d with
  | [] => [(k, v)]
  | (k', v') :: t =>
      if String.leb k k' then (k, v) :: d else (k', v') :: insert_sorted k v t
  end.

(** Modelled from the spec: [sort_basis_dict] and [sort_references_dict]
    live in the repository's [sort] module, which is not among the sources
    at hand.  The spec calls them pure, total, deterministic reorderings of
    a document's keys and fixes no particular order; this one puts the keys
    of every dictionary, at every depth, in ascending byte order and leaves
    lists in place. *)
Fixpoint sort_dict (v : pyval) : pyval :=
  match v with
  | PyList items => PyList (map sort_dict items)
  | PyDict items =>
      PyDict (fold_right (fun kv acc => insert_sorted (fst kv) (sort_dict (snd kv)) acc)
                         [] items)
  | _ => v
  end.

End RefSort.

#[export] Instance ref_sort : Sort := {
  sort_basis_dict := RefSort.sort_dict;
  sort_references_dict := RefSort.sort_dict
}.

(** ** Notions the statements use *)

(** The text of a file as the JSON accessor obtains it: the bytes
    themselves, or what they decompress to when the path ends in .bz2. *)
Definition text_of `{Bz2} (file_path data : string) : exn + string :=
  decoded (endswith file_path ".bz2") data.

(** A document survives [json.dumps] followed by [json.loads]. *)
Definition serialisable `{Json} (js : pyval) : Prop :=
  json_loads (json_dumps js 2) = inr js.

Definition marker : string := "molssi_bse_schema".

(** The three failures of the accessor, as the spec names them. *)
Definition NotFoundError (file_path : string) : exn :=
  FileNotFoundError
    ("JSON file '" +:+ file_path +:+ "' does not exist, is not readable, or is not a file").

Definition MalformedDataError (file_path : string) (parse_error : string) : exn :=
  RuntimeError ("File " +:+ file_path +:+ " contains JSON errors")
               (Some (JSONDecodeError parse_error)).

Definition SchemaMismatchError (file_path : string) : exn :=
  RuntimeError ("File " +:+ file_path +:+ " does not appear to be a BSE JSON file") None.

(** The system calls of one read that gets as far as the file's bytes. *)
Definition read_calls (file_path : string) : list syscall :=
  [SysIsFile file_path; SysOpenRead file_path; SysRead file_path].

(** What [_read_plain_json] makes of the bytes of an existing file. *)
Definition outcome `{Bz2} `{Json} (file_path : string) (check_bse : bool) (data : string)
  : exn + pyval :=
  match text_of file_path data with
  | inl e => inl e
  | inr text =>
      match json_loads text with
      | inl msg => inl (MalformedDataError file_path msg)
      | inr js =>
          if check_bse
          then match py_in marker js with
               | inl e => inl e
               | inr false => inl (SchemaMismatchError file_path)
               | inr true => inr js
               end
          else inr js
      end
  end.

(** What the notes reader makes of the bytes of an existing file. *)
Definition notes_of (data : string) : exn + option string :=
  match text_mode data with
  | inl e => inl e
  | inr text => inr (Some text)
  end.

(** The bytes hold a carriage return. *)
Fixpoint has_cr (s : string) : bool :=
  match s with
  | EmptyString => false
  | String c s' => Ascii.eqb c CR || has_cr s'
  end.

(** The bytes a write of [js] leaves at [file_path]. *)
Definition encoded `{Bz2} `{Json} (file_path : string) (js : pyval) : string :=
  if endswith file_path ".bz2"
  then bz2_compress (json_dumps js 2)
  else json_dumps js 2.

(** A small document that carries the marker. *)
Definition marked_document : pyval :=
  PyDict [("name", PyStr "sto-3g"); (marker, PyDict [("schema_type", PyStr "component")])].

Definition empty_world : world := World ∅ [].

(** The world in which [path] holds [data] and nothing else exists. *)
Definition one_file (path data : string) : world :=
  World {[ path := RegularFile data ]} [].

(** ** Notions the further properties use *)

Section EntryPoints.
Context `{Bz2} `{Json} `{Sort}.

(** The read entry points that look for the marker, and those that do
    not. *)
Definition checked_readers : list (string -> io pyval) :=
  [read_json_basis; read_references].

Definition unchecked_readers : list (string -> io pyval) :=
  [read_schema; read_metadata].

Definition readers : list (string -> io pyval) :=
  (checked_readers ++ unchecked_readers)%list.

(** The write entry points. *)
Definition writers : list (string -> pyval -> io unit) :=
  [write_json_basis; write_references].

End EntryPoints.

(** A system call that cannot change a file. *)
Definition read_only (c : syscall) : bool :=
  match c with
  | SysIsFile _ | SysOpenRead _ | SysRead _ => true
  | SysOpenWrite _ | SysWrite _ => false
  end.

(** The names the classifier lists: those that end in .json, the two
    reserved names apart. *)
Definition listed (basename : string) : bool :=
  negb (reserved basename) && endswith basename ".json".

(** A file of the tree all of whose names the operating system accepts. *)
Definition valid_file (f : list string * string) : Prop :=
  Forall (fun x => valid_name x = true) (fst f) /\ valid_name (snd f) = true.

(** The path [p] seen from the directory that holds the directory [n]. *)
Definition below (n p : string) : string := n +:+ "/" +:+ p.


(** * Theorems *)

(** ** Strings *)

Lemma startswith_app p s : startswith (p +:+ s) p = true.
Proof.
  induction p as [|c p IH]; simpl; [destruct s; reflexivity|].
  rewrite Ascii.eqb_refl. exact IH.
Qed.

Lemma str_contains_startswith h n : startswith h n = true -> str_contains h n = true.
Proof. intros E. destruct h; cbn [str_contains]; rewrite E; reflexivity. Qed.

Lemma str_contains_app a p b : str_contains (a +:+ p +:+ b) p = true.
Proof.
  induction a as [|c a IH].
  - change ("" +:+ p +:+ b) with (p +:+ b).
    apply str_contains_startswith, startswith_app.
  - simpl. rewrite IH. apply orb_true_r.
Qed.

(** ** The JSON store accessor *)

Section Accessor.
Context `{Bz2} `{Json}.

Ltac run_io :=
  cbv beta delta
    [_read_plain_json _write_plain_json read_notes_file
     try_except_JSONDecodeError bind os_path_isfile
     bz2_open_rt open_r open_for_reading bz2_open_wt codecs_open_w open_for_writing
     json_load json_dump f_read f_read_text f_write emit raise ret lift];
  cbn [files log fo_path fo_bz2 fst snd].

Lemma read_plain_missing w file_path check_bse :
  isfile (files w) file_path = false ->
  _read_plain_json file_path check_bse w
  = (inl (NotFoundError file_path), World (files w) (log w ++ [SysIsFile file_path])).
Proof.
  intros Hf. run_io. rewrite Hf. reflexivity.
Qed.

Lemma read_plain_present w file_path check_bse data :
  files w !! file_path = Some (RegularFile data) ->
  _read_plain_json file_path check_bse w
  = (outcome file_path check_bse data,
     World (files w) (log w ++ read_calls file_path)).
Proof.
  intros Hf.
  assert (Hisf : isfile (files w) file_path = true) by (unfold isfile; rewrite Hf; reflexivity).
  run_io. rewrite Hisf. cbn [negb].
  unfold outcome, text_of, read_calls, marker, decoded.
  destruct (endswith file_path ".bz2");
    do 2 (cbn [files log fo_path fo_bz2]; rewrite ?Hf);
    rewrite <- !app_assoc; cbn [app].
  - destruct (bz2_decompress data) as [text|]; [|reflexivity].
    destruct (json_loads text) as [msg|js]; [reflexivity|].
    destruct check_bse; [|reflexivity].
    destruct (py_in "molssi_bse_schema" js) as [e|[|]]; reflexivity.
  - destruct (json_loads data) as [msg|js]; [reflexivity|].
    destruct check_bse; [|reflexivity].
    destruct (py_in "molssi_bse_schema" js) as [e|[|]]; reflexivity.
Qed.

Lemma write_plain_ok w file_path js :
  files w !! file_path <> Some Directory ->
  _write_plain_json file_path js w
  = (inr tt,
     World (<[file_path := RegularFile (encoded file_path js)]> (files w))
           (log w ++ [SysOpenWrite file_path; SysWrite file_path])).
Proof.
  intros Hd. run_io. unfold encoded.
  destruct (endswith file_path ".bz2"); cbn [files log];
    (destruct (files w !! file_path) as [[data|]|] eqn:E; [|congruence|]);
    cbn [files log fo_path fo_bz2];
    rewrite insert_insert_eq, <- app_assoc; reflexivity.
Qed.

Lemma write_plain_directory w file_path js :
  files w !! file_path = Some Directory ->
  _write_plain_json file_path js w
  = (inl (IsADirectoryError file_path),
     World (files w) (log w ++ [SysOpenWrite file_path])).
Proof.
  intros Hd. run_io.
  destruct (endswith file_path ".bz2"); cbn [files log]; rewrite Hd; reflexivity.
Qed.

(** A write either fails on a directory and changes no file, or leaves
    the encoded document at the path. *)
Lemma write_plain_cases w file_path js :
  (files w !! file_path = Some Directory
   /\ fst (_write_plain_json file_path js w) = inl (IsADirectoryError file_path)
   /\ files (snd (_write_plain_json file_path js w)) = files w)
  \/
  (files w !! file_path <> Some Directory
   /\ fst (_write_plain_json file_path js w) = inr tt
   /\ files (snd (_write_plain_json file_path js w))
      = <[file_path := RegularFile (encoded file_path js)]> (files w)).
Proof.
  destruct (files w !! file_path) as [[data|]|] eqn:E.
  - right. rewrite write_plain_ok by congruence. split; [congruence|]. split; reflexivity.
  - left. rewrite write_plain_directory by assumption. repeat split.
  - right. rewrite write_plain_ok by congruence. split; [congruence|]. split; reflexivity.
Qed.

Lemma read_notes_missing w file_path :
  isfile (files w) file_path = false ->
  read_notes_file file_path w
  = (inr None, World (files w) (log w ++ [SysIsFile file_path])).
Proof. intros Hf. run_io. rewrite Hf. reflexivity. Qed.

Lemma read_notes_present w file_path data :
  files w !! file_path = Some (RegularFile data) ->
  read_notes_file file_path w
  = (notes_of data, World (files w) (log w ++ read_calls file_path)).
Proof.
  intros Hf.
  assert (Hisf : isfile (files w) file_path = true) by (unfold isfile; rewrite Hf; reflexivity).
  run_io. rewrite Hisf. cbn [negb].
  do 2 (cbn [files log fo_path fo_bz2]; rewrite ?Hf).
  unfold decoded, read_calls, notes_of. rewrite <- !app_assoc. cbn [app].
  destruct (text_mode data); reflexivity.
Qed.

Lemma universal_newlines_id s : has_cr s = false -> universal_newlines s = s.
Proof.
  induction s as [|c s IH]; [reflexivity|]. cbn [has_cr universal_newlines].
  intros E. apply orb_false_iff in E as [Ec Es]. rewrite Ec, (IH Es). reflexivity.
Qed.

End Accessor.

(** ** Claims about the accessor *)

Section AccessorClaims.
Context `{Bz2} `{Json} `{Sort}.

(** C4.  For every path that is not an existing regular file, each of the
    four read entry points raises the FileNotFoundError of the accessor:
    none of them succeeds, none of them returns without saying so, and the
    only system call made is the isfile probe. *)
Theorem C4_missing_path_raises_NotFoundError (w : world) (file_path : string) :
  isfile (files w) file_path = false ->
  let failed : (exn + pyval) * world :=
    (inl (NotFoundError file_path), World (files w) (log w ++ [SysIsFile file_path])) in
  read_json_basis file_path w = failed
  /\ read_schema file_path w = failed
  /\ read_references file_path w = failed
  /\ read_metadata file_path w = failed.
Proof.
  intros Hf failed.
  unfold read_json_basis, read_schema, read_references, read_metadata, failed.
  rewrite !read_plain_missing by assumption. repeat split.
Qed.

(** C5, as amended.  For every existing file that reads as text (for a
    path ending in .bz2: whose bytes decompress) and whose text is not
    valid JSON, each of the four read entry points raises the RuntimeError
    for malformed data; the JSONDecodeError of the parser is its cause, and
    its message contains the file path. *)
Theorem C5_malformed_text_raises_MalformedDataError
    (w : world) (file_path data text parse_error : string) :
  files w !! file_path = Some (RegularFile data) ->
  text_of file_path data = inr text ->
  json_loads text = inl parse_error ->
  (fst (read_json_basis file_path w) = inl (MalformedDataError file_path parse_error)
   /\ fst (read_schema file_path w) = inl (MalformedDataError file_path parse_error)
   /\ fst (read_references file_path w) = inl (MalformedDataError file_path parse_error)
   /\ fst (read_metadata file_path w) = inl (MalformedDataError file_path parse_error))
  /\ exists msg,
       MalformedDataError file_path parse_error
       = RuntimeError msg (Some (JSONDecodeError parse_error))
       /\ str_contains msg file_path = true.
Proof.
  intros Hf Ht Hj. split.
  - unfold read_json_basis, read_schema, read_references, read_metadata.
    rewrite !(read_plain_present _ _ _ data) by assumption.
    unfold outcome. rewrite Ht, Hj. repeat split.
  - eexists. split; [reflexivity|]. apply str_contains_app.
Qed.

(** C2, as amended.  For every file whose text is valid JSON with a
    mapping at the top level: read_schema and read_metadata return the
    mapping; when it lacks the marker key, read_json_basis and
    read_references raise the RuntimeError for a schema mismatch; when it
    has the key, all four entry points return the same mapping. *)
Theorem C2_marker_key_decides_the_checked_readers
    (w : world) (file_path data text : string) (items : list (string * pyval)) :
  files w !! file_path = Some (RegularFile data) ->
  text_of file_path data = inr text ->
  json_loads text = inr (PyDict items) ->
  let has_marker := existsb (String.eqb marker) (map fst items) in
  fst (read_schema file_path w) = inr (PyDict items)
  /\ fst (read_metadata file_path w) = inr (PyDict items)
  /\ (has_marker = false ->
      fst (read_json_basis file_path w) = inl (SchemaMismatchError file_path)
      /\ fst (read_references file_path w) = inl (SchemaMismatchError file_path))
  /\ (has_marker = true ->
      fst (read_json_basis file_path w) = inr (PyDict items)
      /\ fst (read_references file_path w) = inr (PyDict items)).
Proof.
  intros Hf Ht Hj. cbv zeta.
  unfold read_json_basis, read_schema, read_references, read_metadata.
  rewrite !(read_plain_present _ _ _ data) by assumption.
  unfold outcome. rewrite Ht, Hj. cbn [fst py_in].
  split; [reflexivity|]. split; [reflexivity|].
  split; intros ->; split; reflexivity.
Qed.

(** C10.  The three failures of a marker-checked read exclude one another
    and come in a fixed order.  The FileNotFoundError is raised exactly
    when the path is no regular file, after the isfile probe and before
    the file is opened or read.  The malformed-data error is raised exactly
    when the file exists, its text was read and the parser rejected it;
    the marker plays no part, since the unchecked reader fails the same
    way.  The schema-mismatch error is raised exactly when the file exists,
    its text was read in full and parsed, and the parsed document lacks
    the marker. *)
Theorem C10_failures_are_exclusive_and_ordered (w : world) (file_path : string) :
  let r := read_json_basis file_path w in
  (fst r = inl (NotFoundError file_path) <-> isfile (files w) file_path = false)
  /\ (fst r = inl (NotFoundError file_path) ->
      log (snd r) = (log w ++ [SysIsFile file_path])%list)
  /\ (forall parse_error,
        fst r = inl (MalformedDataError file_path parse_error) <->
        exists data text,
          files w !! file_path = Some (RegularFile data)
          /\ text_of file_path data = inr text
          /\ json_loads text = inl parse_error)
  /\ (forall parse_error,
        fst r = inl (MalformedDataError file_path parse_error) ->
        fst (read_schema file_path w) = inl (MalformedDataError file_path parse_error))
  /\ (fst r = inl (SchemaMismatchError file_path) <->
      exists data text js,
        files w !! file_path = Some (RegularFile data)
        /\ text_of file_path data = inr text
        /\ json_loads text = inr js
        /\ py_in marker js = inr false)
  /\ (fst r = inl (SchemaMismatchError file_path) ->
      log (snd r) = (log w ++ read_calls file_path)%list)
  /\ (forall parse_error,
        NotFoundError file_path <> MalformedDataError file_path parse_error
        /\ NotFoundError file_path <> SchemaMismatchError file_path
        /\ MalformedDataError file_path parse_error <> SchemaMismatchError file_path).
Proof.
  intros r. subst r. unfold read_json_basis, read_schema.
  destruct (files w !! file_path) as [[data|]|] eqn:Hf.
  - (* a regular file *)
    assert (Hisf : isfile (files w) file_path = true)
      by (unfold isfile; rewrite Hf; reflexivity).
    rewrite !(read_plain_present _ _ _ data) by assumption.
    cbn [fst snd log]. unfold outcome.
    destruct (text_of file_path data) as [e|text] eqn:Ht.
    + assert (He : exists m, e = OSError m).
      { unfold text_of, decoded in Ht.
        destruct (endswith file_path ".bz2"); [|discriminate].
        destruct (bz2_decompress data); [discriminate|].
        injection Ht as <-. eauto. }
      destruct He as [m ->].
      repeat split; try discriminate; try congruence.
      * intros (data' & text' & Hd & Ht' & _). congruence.
      * intros (data' & text' & js & Hd & Ht' & _). congruence.
    + destruct (json_loads text) as [msg|js] eqn:Hj.
      * repeat split; try discriminate; try congruence.
        -- intros E. injection E as <-. eauto.
        -- intros (data' & text' & Hd & Ht' & Hj'). congruence.
        -- intros (data' & text' & js & Hd & Ht' & Hj' & _). congruence.
      * destruct (py_in marker js) as [e|[|]] eqn:Hm.
        -- assert (He : exists m, e = TypeError m).
           { unfold py_in in Hm. destruct js; try discriminate;
               injection Hm as <-; eauto. }
           destruct He as [m ->].
           repeat split; try discriminate; try congruence.
           ++ intros (data' & text' & Hd & Ht' & Hj'). congruence.
           ++ intros (data' & text' & js' & Hd & Ht' & Hj' & Hm'). congruence.
        -- repeat split; try discriminate; try congruence.
           ++ intros (data' & text' & Hd & Ht' & Hj'). congruence.
           ++ intros (data' & text' & js' & Hd & Ht' & Hj' & Hm'). congruence.
        -- repeat split; try discriminate; try congruence.
           ++ intros (data' & text' & Hd & Ht' & Hj'). congruence.
           ++ intros _. exists data, text, js. auto.
  - (* a directory *)
    assert (Hisf : isfile (files w) file_path = false)
      by (unfold isfile; rewrite Hf; reflexivity).
    rewrite !read_plain_missing by assumption. cbn [fst snd log].
    repeat split; try discriminate; try congruence.
    + intros (data' & text' & Hd & _). congruence.
    + intros (data' & text' & js' & Hd & _). congruence.
  - (* nothing at the path *)
    assert (Hisf : isfile (files w) file_path = false)
      by (unfold isfile; rewrite Hf; reflexivity).
    rewrite !read_plain_missing by assumption. cbn [fst snd log].
    repeat split; try discriminate; try congruence.
    + intros (data' & text' & Hd & _). congruence.
    + intros (data' & text' & js' & Hd & _). congruence.
Qed.

End AccessorClaims.

Section WriterClaims.
Context `{Bz2} `{Json} `{Sort}.

Lemma text_of_encoded file_path js :
  text_of file_path (encoded file_path js) = inr (json_dumps js 2).
Proof.
  unfold text_of, encoded, decoded.
  destruct (endswith file_path ".bz2"); [rewrite bz2_roundtrip|]; reflexivity.
Qed.

Lemma write_then_read (w w' : world) (file_path : string) (d : pyval) :
  write_json_basis file_path d w = (inr tt, w') ->
  serialisable (sort_basis_dict d) ->
  py_in marker (sort_basis_dict d) = inr true ->
  read_json_basis file_path w'
  = (inr (sort_basis_dict d), World (files w') (log w' ++ read_calls file_path)).
Proof.
  unfold write_json_basis, read_json_basis, serialisable. intros Hw Hs Hm.
  destruct (write_plain_cases w file_path (sort_basis_dict d))
    as [(_ & Hr & _)|(_ & _ & Hfiles)]; rewrite Hw in *; [discriminate|].
  cbn [snd] in Hfiles.
  rewrite (read_plain_present _ _ _ (encoded file_path (sort_basis_dict d)))
    by (rewrite Hfiles; apply lookup_insert_eq).
  unfold outcome. rewrite text_of_encoded, Hs, Hm. reflexivity.
Qed.


(** C6.  Writing the same document twice through the same write entry
    point leaves byte-identical files: the second of two writes in a row
    has the outcome of the first and changes no file, and two successful
    writes from any two states of the file system leave the same bytes at
    the path, namely the serialisation of the sorted document. *)
Theorem C6_repeated_writes_are_byte_identical
    (w1 w2 : world) (file_path : string) (d : pyval) :
  (let once := write_json_basis file_path d w1 in
   let twice := write_json_basis file_path d (snd once) in
   fst twice = fst once /\ files (snd twice) = files (snd once))
  /\ (let once := write_references file_path d w1 in
      let twice := write_references file_path d (snd once) in
      fst twice = fst once /\ files (snd twice) = files (snd once))
  /\ (fst (write_json_basis file_path d w1) = inr tt ->
      fst (write_json_basis file_path d w2) = inr tt ->
      files (snd (write_json_basis file_path d w1)) !! file_path
      = Some (RegularFile (encoded file_path (sort_basis_dict d)))
      /\ files (snd (write_json_basis file_path d w2)) !! file_path
         = files (snd (write_json_basis file_path d w1)) !! file_path)
  /\ (fst (write_references file_path d w1) = inr tt ->
      fst (write_references file_path d w2) = inr tt ->
      files (snd (write_references file_path d w1)) !! file_path
      = Some (RegularFile (encoded file_path (sort_references_dict d)))
      /\ files (snd (write_references file_path d w2)) !! file_path
         = files (snd (write_references file_path d w1)) !! file_path).
Proof.
  assert (Twice : forall w js,
    let once := _write_plain_json file_path js w in
    let twice := _write_plain_json file_path js (snd once) in
    fst twice = fst once /\ files (snd twice) = files (snd once)).
  { intros w js. cbv zeta.
    destruct (write_plain_cases w file_path js) as [(Hd & Hr & Hf)|(Hd & Hr & Hf)].
    - destruct (write_plain_cases (snd (_write_plain_json file_path js w)) file_path js)
        as [(Hd' & Hr' & Hf')|(Hd' & _ & _)].
      + rewrite Hr', Hr, Hf', Hf. split; reflexivity.
      + rewrite Hf in Hd'. contradiction.
    - destruct (write_plain_cases (snd (_write_plain_json file_path js w)) file_path js)
        as [(Hd' & _ & _)|(Hd' & Hr' & Hf')].
      + rewrite Hf, lookup_insert_eq in Hd'. discriminate.
      + rewrite Hr', Hr, Hf', Hf, insert_insert_eq. split; reflexivity. }
  assert (Same : forall w w' js,
    fst (_write_plain_json file_path js w) = inr tt ->
    fst (_write_plain_json file_path js w') = inr tt ->
    files (snd (_write_plain_json file_path js w)) !! file_path
    = Some (RegularFile (encoded file_path js))
    /\ files (snd (_write_plain_json file_path js w')) !! file_path
       = files (snd (_write_plain_json file_path js w)) !! file_path).
  { intros w w' js Hw Hw'.
    destruct (write_plain_cases w file_path js) as [(_ & Hr & _)|(_ & _ & Hf)];
      [rewrite Hr in Hw; discriminate|].
    destruct (write_plain_cases w' file_path js) as [(_ & Hr' & _)|(_ & _ & Hf')];
      [rewrite Hr' in Hw'; discriminate|].
    rewrite Hf, Hf', !lookup_insert_eq. split; reflexivity. }
  unfold write_json_basis, write_references.
  split; [apply Twice|]. split; [apply Twice|]. split; apply Same.
Qed.

(** C8, as amended.  The notes reader returns None, and raises nothing,
    for every path that is not an existing regular file.  For an existing
    regular file whose bytes are well-formed UTF-8 it returns the content
    with every carriage return, alone or before a line feed, turned into a
    line feed; so when the bytes hold no carriage return it returns the
    whole content as it stands, and a file holding hello yields hello.
    Bytes that are not well-formed UTF-8 make it raise
    UnicodeDecodeError. *)
Theorem C8_notes_reader_returns_None_or_the_content (w : world) (file_path : string) :
  (isfile (files w) file_path = false ->
   fst (read_notes_file file_path w) = inr None)
  /\ (forall data,
        files w !! file_path = Some (RegularFile data) ->
        utf8_valid data = true ->
        fst (read_notes_file file_path w) = inr (Some (universal_newlines data)))
  /\ (forall data,
        files w !! file_path = Some (RegularFile data) ->
        utf8_valid data = true -> has_cr data = false ->
        fst (read_notes_file file_path w) = inr (Some data))
  /\ (forall data,
        files w !! file_path = Some (RegularFile data) ->
        utf8_valid data = false ->
        exists msg, fst (read_notes_file file_path w) = inl (UnicodeDecodeError msg))
  /\ fst (read_notes_file file_path (one_file file_path "hello")) = inr (Some "hello").
Proof.
  split; [|split; [|split; [|split]]].
  - intros Hf. rewrite read_notes_missing by assumption. reflexivity.
  - intros data Hf Hv. rewrite (read_notes_present _ _ data) by assumption.
    unfold notes_of, text_mode. rewrite Hv. reflexivity.
  - intros data Hf Hv Hc. rewrite (read_notes_present _ _ data) by assumption.
    unfold notes_of, text_mode. rewrite Hv, (universal_newlines_id data Hc). reflexivity.
  - intros data Hf Hv. rewrite (read_notes_present _ _ data) by assumption.
    unfold notes_of, text_mode. rewrite Hv. eexists. reflexivity.
  - rewrite (read_notes_present _ _ "hello"); [reflexivity|].
    apply lookup_singleton_eq.
Qed.

End WriterClaims.

(** ** posixpath *)

#[local] Arguments Ascii.eqb : simpl never.
#[local] Arguments String.eqb : simpl never.

Lemma append_assoc (a b c : string) : (a +:+ b) +:+ c = a +:+ (b +:+ c).
Proof. induction a as [|x a IH]; simpl; [reflexivity|rewrite IH; reflexivity]. Qed.

Lemma append_nil_r (a : string) : a +:+ "" = a.
Proof. induction a as [|x a IH]; simpl; [reflexivity|rewrite IH; reflexivity]. Qed.

Lemma split_sep_nonnil s : split_sep s <> [].
Proof.
  destruct s as [|c s]; simpl; [discriminate|].
  destruct (Ascii.eqb c sep); [discriminate|].
  destruct (split_sep s); discriminate.
Qed.

Lemma split_sep_app_sep a b :
  split_sep (a +:+ String sep b) = (split_sep a ++ split_sep b)%list.
Proof.
  induction a as [|c a IH]; simpl.
  - reflexivity.
  - destruct (Ascii.eqb c sep); [rewrite IH; reflexivity|].
    rewrite IH. destruct (split_sep a) as [|h t] eqn:E; [|reflexivity].
    exfalso. exact (split_sep_nonnil a E).
Qed.

Lemma split_sep_sep_free s : has_sep s = false -> split_sep s = [s].
Proof.
  induction s as [|c s IH]; simpl; [reflexivity|].
  intros Hs. apply orb_false_iff in Hs as [Hc Hs].
  rewrite Hc, (IH Hs). reflexivity.
Qed.

Lemma split_sep_parts_sep_free s : Forall (fun x => has_sep x = false) (split_sep s).
Proof.
  induction s as [|c s IH]; simpl.
  - constructor; [reflexivity|constructor].
  - destruct (Ascii.eqb c sep) eqn:Hc.
    + constructor; [reflexivity|exact IH].
    + destruct (split_sep s) as [|h t]; [repeat constructor; simpl; rewrite Hc; reflexivity|].
      inversion IH as [|? ? Hh Ht]; subst.
      constructor; [simpl; rewrite Hc; exact Hh|exact Ht].
Qed.

Lemma comps_app_sep a b : comps (a +:+ String sep b) = (comps a ++ comps b)%list.
Proof. unfold comps. rewrite split_sep_app_sep. apply List.filter_app. Qed.

Lemma comps_empty : comps "" = [].
Proof. reflexivity. Qed.

Lemma endswith_sep_inv a : endswith a "/" = true -> exists a', a = a' +:+ "/".
Proof.
  induction a as [|c a IH]; cbn [endswith].
  - discriminate.
  - intros Hs. apply orb_true_iff in Hs as [Hs|Hs].
    + apply String.eqb_eq in Hs. exists "". exact Hs.
    + destruct (IH Hs) as [a' ->]. exists (String c a'). reflexivity.
Qed.

Lemma comps_app_after_sep a b : endswith a "/" = true -> comps (a +:+ b) = (comps a ++ comps b)%list.
Proof.
  intros Hs. destruct (endswith_sep_inv a Hs) as [a' ->].
  rewrite append_assoc.
  change ("/" +:+ b) with (String sep b).
  rewrite comps_app_sep.
  change (a' +:+ "/") with (a' +:+ String sep "").
  rewrite comps_app_sep, comps_empty, app_nil_r. reflexivity.
Qed.

Lemma comps_path_join a b :
  startswith b "/" = false -> comps (path_join a b) = (comps a ++ comps b)%list.
Proof.
  intros Hb. unfold path_join. rewrite Hb.
  destruct (String.eqb a "") eqn:Ha.
  - apply String.eqb_eq in Ha. subst a. reflexivity.
  - simpl. destruct (endswith a "/") eqn:He.
    + apply comps_app_after_sep. exact He.
    + change ("/" +:+ b) with (String sep b). apply comps_app_sep.
Qed.

Lemma startswith_nil s : startswith s "" = true.
Proof. destruct s; reflexivity. Qed.

Lemma startswith_sep_cons c s : startswith (String c s) "/" = Ascii.eqb sep c.
Proof. cbn [startswith]. rewrite startswith_nil. apply andb_true_r. Qed.

Lemma startswith_path_join a b :
  startswith b "/" = false -> startswith (path_join a b) "/" = startswith a "/".
Proof.
  intros Hb. unfold path_join. rewrite Hb.
  destruct a as [|c a]; [exact Hb|].
  destruct (String.eqb (String c a) "" || endswith (String c a) "/");
    cbn [String.append]; rewrite !startswith_sep_cons; reflexivity.
Qed.

Lemma eqb_sep_true c : Ascii.eqb sep c = true -> c = sep.
Proof. intros E. apply Ascii.eqb_eq in E. congruence. Qed.

Lemma startswith_cons c s d p :
  startswith (String c s) (String d p) = Ascii.eqb d c && startswith s p.
Proof. reflexivity. Qed.

Lemma startswith_sep_false b t :
  startswith b "/" = false -> startswith b (String sep t) = false.
Proof.
  destruct b as [|d b]; [reflexivity|].
  unfold sep. rewrite !startswith_cons, startswith_nil, andb_true_r. intros ->. reflexivity.
Qed.

(** Joining a relative path onto an absolute one does not touch the
    leading slashes. *)
Lemma startswith_slashes_path_join a b t :
  t = "" \/ t = "/" ->
  startswith a "/" = true -> startswith b "/" = false ->
  startswith (path_join a b) (String sep (String sep t))
  = startswith a (String sep (String sep t)).
Proof.
  intros Ht Ha Hb. unfold path_join. rewrite Hb.
  pose proof (startswith_sep_false b t Hb) as Hbt.
  destruct a as [|c1 a]; [discriminate|].
  rewrite startswith_sep_cons in Ha. apply eqb_sep_true in Ha. subst c1.
  unfold sep in *.
  destruct a as [|c2 a].
  - (* the root *)
    replace (String.eqb "/" "" || endswith "/" "/") with true by reflexivity.
    cbn [String.append]. rewrite !startswith_cons, Hbt. reflexivity.
  - destruct (String.eqb _ "" || endswith _ "/") eqn:E;
      cbn [String.append]; rewrite !(startswith_cons _ _ "/"%char);
      destruct (Ascii.eqb "/" c2) eqn:E2; try reflexivity;
      apply eqb_sep_true in E2; unfold sep in E2; subst c2; rewrite !andb_true_l;
      (destruct Ht as [-> | ->]; [rewrite !startswith_nil; reflexivity|]).
    + destruct a as [|c3 a];
        [|cbn [String.append]; rewrite !startswith_cons, !startswith_nil; reflexivity].
      cbn [String.append]. rewrite Hb. reflexivity.
    + destruct a as [|c3 a];
        [|cbn [String.append]; rewrite !startswith_cons, !startswith_nil; reflexivity].
      discriminate E.
Qed.

Lemma initial_slashes_path_join a b :
  startswith a "/" = true -> startswith b "/" = false ->
  initial_slashes (path_join a b) = initial_slashes a.
Proof.
  intros Ha Hb. unfold initial_slashes.
  rewrite (startswith_path_join a b Hb).
  change "//" with (String sep (String sep "")).
  change "///" with (String sep (String sep "/")).
  rewrite !startswith_slashes_path_join by (assumption || (left; reflexivity) || (right; reflexivity)).
  reflexivity.
Qed.

(** The loop of normpath skips empty components. *)
Lemma normpath_fold_comps n l acc :
  fold_left (normpath_step n) l acc
  = fold_left (normpath_step n) (List.filter nonempty l) acc.
Proof.
  revert acc. induction l as [|x l IH]; intros acc; simpl; [reflexivity|].
  unfold nonempty at 1. destruct (String.eqb x "") eqn:E; simpl.
  - unfold normpath_step at 2. rewrite E. simpl. apply IH.
  - apply IH.
Qed.

Lemma comps_good s : Forall good (comps s).
Proof.
  unfold comps.
  pose proof (split_sep_parts_sep_free s) as Hs.
  induction Hs as [|x l Hx Hl IH]; simpl; [constructor|].
  destruct (nonempty x) eqn:E; [constructor; [split; assumption|exact IH]|exact IH].
Qed.

Lemma Forall_removelast {A} (P : A -> Prop) l : Forall P l -> Forall P (removelast l).
Proof.
  induction 1 as [|x l Hx Hl IH]; simpl; [constructor|].
  destruct l; [constructor|]. constructor; assumption.
Qed.

Lemma normpath_step_good n acc x : Forall good acc -> good x -> Forall good (normpath_step n acc x).
Proof.
  intros Ha Hx. unfold normpath_step.
  destruct (String.eqb x "" || String.eqb x "."); [exact Ha|].
  destruct (negb (String.eqb x "..") || _ || _).
  - apply Forall_app. split; [exact Ha|constructor; [exact Hx|constructor]].
  - apply Forall_removelast. exact Ha.
Qed.

Lemma normpath_fold_good n l acc :
  Forall good l -> Forall good acc -> Forall good (fold_left (normpath_step n) l acc).
Proof.
  intros Hl. revert acc. induction Hl as [|x l Hx Hl IH]; intros acc Ha; simpl; [exact Ha|].
  apply IH. apply normpath_step_good; assumption.
Qed.

Lemma comps_slashes n s : comps (slashes n +:+ s) = comps s.
Proof.
  induction n as [|n IH]; simpl; [reflexivity|].
  change (String sep (slashes n +:+ s)) with ("" +:+ String sep (slashes n +:+ s)).
  rewrite comps_app_sep. exact IH.
Qed.

Lemma comps_of_good x : good x -> comps x = [x].
Proof.
  intros [Hn Hs]. unfold comps. rewrite (split_sep_sep_free x Hs). simpl. rewrite Hn. reflexivity.
Qed.

Lemma comps_concat cs : Forall good cs -> comps (String.concat "/" cs) = cs.
Proof.
  induction 1 as [|x l Hx Hl IH]; [reflexivity|].
  destruct l as [|y l].
  - simpl. apply comps_of_good. exact Hx.
  - change (String.concat "/" (x :: y :: l)) with (x +:+ String sep (String.concat "/" (y :: l))).
    rewrite comps_app_sep, IH, (comps_of_good x Hx). reflexivity.
Qed.

Lemma slashes_nonempty n s : n <> 0 -> String.eqb (slashes n +:+ s) "" = false.
Proof. destruct n; [congruence|reflexivity]. Qed.

Lemma initial_slashes_pos p : startswith p "/" = true -> initial_slashes p <> 0.
Proof.
  intros Hp. unfold initial_slashes. rewrite Hp.
  destruct (startswith p "//" && negb (startswith p "///")); discriminate.
Qed.

Lemma comps_normpath p :
  startswith p "/" = true ->
  comps (normpath p) = fold_left (normpath_step (initial_slashes p)) (comps p) [].
Proof.
  intros Hp. unfold normpath.
  destruct (String.eqb p "") eqn:E.
  { apply String.eqb_eq in E. subst p. discriminate. }
  rewrite normpath_fold_comps. fold (comps p).
  rewrite slashes_nonempty by (apply initial_slashes_pos; exact Hp).
  rewrite comps_slashes. apply comps_concat.
  apply normpath_fold_good; [apply comps_good|constructor].
Qed.

(** ** Valid names *)

Lemma valid_name_inv n :
  valid_name n = true ->
  String.eqb n "" = false /\ String.eqb n "." = false /\ String.eqb n ".." = false
  /\ has_sep n = false.
Proof.
  unfold valid_name, nonempty. intros Hv.
  apply andb_true_iff in Hv as [Hv H4]. apply andb_true_iff in Hv as [Hv H3].
  apply andb_true_iff in Hv as [H1 H2].
  apply negb_true_iff in H1, H2, H3, H4. auto.
Qed.

Lemma valid_name_good n : valid_name n = true -> good n.
Proof.
  intros Hv. apply valid_name_inv in Hv as (H1 & _ & _ & H4).
  split; [unfold nonempty; rewrite H1; reflexivity|exact H4].
Qed.

Lemma valid_name_relative n : valid_name n = true -> startswith n "/" = false.
Proof.
  intros Hv. apply valid_name_inv in Hv as (_ & _ & _ & H4).
  destruct n as [|c n]; [reflexivity|].
  rewrite startswith_sep_cons. simpl in H4. apply orb_false_iff in H4 as [Hc _].
  rewrite Ascii.eqb_sym. exact Hc.
Qed.

Lemma normpath_step_valid n acc name :
  valid_name name = true -> normpath_step n acc name = (acc ++ [name])%list.
Proof.
  intros Hv. apply valid_name_inv in Hv as (H1 & H2 & H3 & _).
  unfold normpath_step. rewrite H1, H2, H3. reflexivity.
Qed.

Lemma normpath_fold_valid n names acc :
  Forall (fun x => valid_name x = true) names ->
  fold_left (normpath_step n) names acc = (acc ++ names)%list.
Proof.
  intros Hn. revert acc. induction Hn as [|x l Hx Hl IH]; intros acc; simpl.
  - rewrite app_nil_r. reflexivity.
  - rewrite (normpath_step_valid n acc x Hx), IH, <- app_assoc. reflexivity.
Qed.

(** ** commonprefix *)

Lemma compare_refl s : String.compare s s = Eq.
Proof.
  pose proof (String.compare_antisym s s) as E.
  destruct (String.compare s s); simpl in E; congruence.
Qed.

Lemma list_lt_app_l s t : list_lt (s ++ t) s = false.
Proof.
  induction s as [|x s IH]; simpl.
  - destruct t; reflexivity.
  - rewrite compare_refl. exact IH.
Qed.

Lemma common_run_app s t : common_run s (s ++ t) = s.
Proof.
  induction s as [|x s IH]; simpl; [reflexivity|].
  rewrite String.eqb_refl, IH. reflexivity.
Qed.

Lemma common_run_refl s : common_run s s = s.
Proof. rewrite <- (app_nil_r s) at 2. apply common_run_app. Qed.

Lemma commonprefix_app s t : commonprefix s (s ++ t) = s.
Proof.
  unfold commonprefix. rewrite list_lt_app_l.
  destruct (list_lt s (s ++ t)); [apply common_run_app|apply common_run_refl].
Qed.

(** ** Joining names *)

Lemma joined_snoc start names n :
  joined start (names ++ [n]) = path_join (joined start names) n.
Proof. unfold joined. rewrite fold_left_app. reflexivity. Qed.

Lemma endswith_sep_app x r :
  String.eqb r "" = false -> endswith (x +:+ r) "/" = endswith r "/".
Proof.
  intros Hr. induction x as [|c x IH]; [reflexivity|].
  cbn [String.append endswith]. rewrite IH.
  replace (String.eqb (String c (x +:+ r)) "/") with false; [reflexivity|].
  symmetry. apply String.eqb_neq. intros E. injection E as _ E.
  destruct x; simpl in E; [subst r; discriminate|discriminate].
Qed.

Lemma endswith_sep_free r : has_sep r = false -> endswith r "/" = false.
Proof.
  induction r as [|c r IH]; [reflexivity|].
  cbn [has_sep endswith]. intros Hs. apply orb_false_iff in Hs as [Hc Hs].
  rewrite (IH Hs), orb_false_r.
  apply String.eqb_neq. intros E. injection E as E _. subst c. discriminate.
Qed.

Lemma path_join_valid a n :
  valid_name n = true -> String.eqb a "" = false -> endswith a "/" = false ->
  path_join a n = a +:+ "/" +:+ n.
Proof.
  intros Hv Ha He. unfold path_join.
  rewrite (valid_name_relative n Hv), Ha, He. reflexivity.
Qed.

Lemma append_nonempty a b : String.eqb b "" = false -> String.eqb (a +:+ b) "" = false.
Proof.
  intros Hb. destruct a; [exact Hb|reflexivity].
Qed.

Lemma fold_path_join_valid rest acc :
  Forall (fun x => valid_name x = true) rest ->
  String.eqb acc "" = false -> endswith acc "/" = false ->
  fold_left path_join rest acc = acc +:+ slash_all rest.
Proof.
  intros Hr. revert acc. induction Hr as [|x l Hx Hl IH]; intros acc Ha He; simpl.
  - rewrite append_nil_r. reflexivity.
  - rewrite (path_join_valid acc x Hx Ha He).
    pose proof (valid_name_inv x Hx) as (H1 & _ & _ & H4).
    rewrite IH.
    + rewrite !append_assoc. reflexivity.
    + apply append_nonempty. reflexivity.
    + change (acc +:+ "/" +:+ x) with (acc +:+ ("/" +:+ x)).
      rewrite <- append_assoc.
      rewrite endswith_sep_app by exact H1. apply endswith_sep_free. exact H4.
Qed.

Lemma concat_sep_cons first rest :
  String.concat "/" (first :: rest) = first +:+ slash_all rest.
Proof.
  revert first. induction rest as [|x l IH]; intros first.
  - simpl. rewrite append_nil_r. reflexivity.
  - change (String.concat "/" (first :: x :: l))
      with (first +:+ "/" +:+ String.concat "/" (x :: l)).
    rewrite IH. reflexivity.
Qed.

Lemma fold_path_join_names first rest :
  Forall (fun x => valid_name x = true) (first :: rest) ->
  fold_left path_join rest first = String.concat "/" (first :: rest).
Proof.
  intros Hv. inversion Hv as [|? ? Hf Hr]; subst.
  pose proof (valid_name_inv first Hf) as (H1 & _ & _ & H4).
  rewrite fold_path_join_valid by (assumption || apply endswith_sep_free; assumption).
  symmetry. apply concat_sep_cons.
Qed.

(** ** relpath below the start *)

Lemma startswith_joined start names :
  Forall (fun x => valid_name x = true) names ->
  startswith (joined start names) "/" = startswith start "/".
Proof.
  intros Hn. revert start. unfold joined.
  induction Hn as [|x l Hx Hl IH]; intros start; simpl; [reflexivity|].
  rewrite IH. apply startswith_path_join, valid_name_relative, Hx.
Qed.

Lemma comps_joined start names :
  Forall (fun x => valid_name x = true) names ->
  comps (joined start names) = (comps start ++ names)%list.
Proof.
  intros Hn. revert start. unfold joined.
  induction Hn as [|x l Hx Hl IH]; intros start; simpl.
  - rewrite app_nil_r. reflexivity.
  - rewrite IH, comps_path_join by (apply valid_name_relative, Hx).
    rewrite (comps_of_good x (valid_name_good x Hx)), <- app_assoc. reflexivity.
Qed.

Lemma initial_slashes_joined start names :
  startswith start "/" = true ->
  Forall (fun x => valid_name x = true) names ->
  initial_slashes (joined start names) = initial_slashes start.
Proof.
  intros Hs Hn. revert start Hs. unfold joined.
  induction Hn as [|x l Hx Hl IH]; intros start Hs; simpl; [reflexivity|].
  pose proof (valid_name_relative x Hx) as Hrel.
  rewrite IH by (rewrite startswith_path_join; assumption).
  apply initial_slashes_path_join; assumption.
Qed.

Lemma anchored_absolute cwd path :
  startswith cwd "/" = true -> startswith (anchored cwd path) "/" = true.
Proof.
  intros Hc. unfold anchored. destruct (startswith path "/") eqn:E; [exact E|].
  rewrite startswith_path_join; assumption.
Qed.

Lemma anchored_joined cwd start names :
  startswith cwd "/" = true ->
  Forall (fun x => valid_name x = true) names ->
  comps (anchored cwd (joined start names)) = (comps (anchored cwd start) ++ names)%list
  /\ initial_slashes (anchored cwd (joined start names))
     = initial_slashes (anchored cwd start).
Proof.
  intros Hc Hn. unfold anchored.
  rewrite (startswith_joined start names Hn).
  destruct (startswith start "/") eqn:Hs.
  - split; [apply comps_joined|apply initial_slashes_joined]; assumption.
  - assert (Hj : startswith (joined start names) "/" = false)
      by (rewrite startswith_joined; assumption).
    rewrite !comps_path_join, !initial_slashes_path_join by assumption.
    rewrite comps_joined, app_assoc by assumption. split; reflexivity.
Qed.

Lemma abspath_anchored cwd path : abspath cwd path = normpath (anchored cwd path).
Proof. unfold abspath, anchored. destruct (startswith path "/"); reflexivity. Qed.

Lemma joined_nonempty start names :
  names <> [] -> Forall (fun x => valid_name x = true) names ->
  String.eqb (joined start names) "" = false.
Proof.
  intros Hne Hn. destruct (exists_last Hne) as (l & x & ->).
  apply Forall_app in Hn as [_ Hx]. inversion Hx as [|? ? Hv _]; subst.
  rewrite joined_snoc. unfold path_join.
  rewrite (valid_name_relative x Hv).
  pose proof (valid_name_inv x Hv) as (H1 & _).
  destruct (String.eqb (joined start l) "" || endswith (joined start l) "/").
  - apply append_nonempty. exact H1.
  - apply append_nonempty. reflexivity.
Qed.

Lemma relpath_below_start cwd start names :
  startswith cwd "/" = true ->
  names <> [] ->
  Forall (fun x => valid_name x = true) names ->
  relpath cwd (joined start names) start = inr (String.concat "/" names).
Proof.
  intros Hc Hne Hn. unfold relpath.
  rewrite (joined_nonempty start names Hne Hn).
  rewrite !abspath_anchored. fold (comps (normpath (anchored cwd start))).
  fold (comps (normpath (anchored cwd (joined start names)))).
  rewrite !comps_normpath by (apply anchored_absolute; exact Hc).
  destruct (anchored_joined cwd start names Hc Hn) as [-> ->].
  rewrite fold_left_app.
  set (S := fold_left (normpath_step (initial_slashes (anchored cwd start)))
                      (comps (anchored cwd start)) []).
  rewrite (normpath_fold_valid _ names S Hn).
  rewrite commonprefix_app, Nat.sub_diag. cbn [repeat app].
  rewrite skipn_app, skipn_all, Nat.sub_diag. cbn [skipn app].
  destruct names as [|first rest]; [congruence|].
  cbn [skipn]. rewrite (fold_path_join_names first rest Hn). reflexivity.
Qed.

(** ** The classifier *)

Lemma bucket_app c a b : bucket c (a ++ b) = (bucket c a ++ bucket c b)%list.
Proof. unfold bucket. rewrite List.filter_app, map_app. reflexivity. Qed.

Lemma extend_nil acc : extend acc [] = acc.
Proof. destruct acc. unfold extend, bucket. simpl. rewrite !app_nil_r. reflexivity. Qed.

Lemma extend_app acc a b : extend (extend acc a) b = extend acc (a ++ b).
Proof. unfold extend. simpl. rewrite !bucket_app, <- !app_assoc. reflexivity. Qed.

Lemma place_extend acc f :
  place (spec_category (snd f)) (relative_path f) acc = extend acc [f].
Proof.
  destruct acc. unfold extend, bucket, in_category. simpl.
  destruct (spec_category (snd f)) as [[]|]; simpl; rewrite ?app_nil_r; reflexivity.
Qed.

Lemma for_each_app {A S} (body : S -> A -> exn + S) xs ys s :
  for_each body (xs ++ ys) s
  = match for_each body xs s with
    | inl e => inl e
    | inr s' => for_each body ys s'
    end.
Proof.
  revert s. induction xs as [|x xs IH]; intros s; simpl; [reflexivity|].
  destruct (body s x); [reflexivity|apply IH].
Qed.

Section Classifier.
Variables cwd data_dir : string.
Hypothesis cwd_absolute : startswith cwd "/" = true.

Lemma classify_valid dirs acc basename :
  Forall (fun x => valid_name x = true) dirs -> valid_name basename = true ->
  classify cwd data_dir (joined data_dir dirs) acc basename
  = inr (extend acc [(dirs, basename)]).
Proof.
  intros Hd Hb. rewrite <- place_extend. unfold classify, spec_category, special.
  cbn [existsb snd]. rewrite orb_false_r.
  destruct (String.eqb basename "METADATA.json" || String.eqb basename "REFERENCES.json");
    [reflexivity|].
  rewrite <- joined_snoc.
  rewrite relpath_below_start;
    [|exact cwd_absolute|destruct dirs; discriminate
     |apply Forall_app; split; [exact Hd|constructor; [exact Hb|constructor]]].
  fold (relative_path (dirs, basename)).
  destruct (endswith basename ".metadata.json"); [reflexivity|].
  destruct (endswith basename ".table.json"); [reflexivity|].
  destruct (endswith basename ".element.json"); [reflexivity|].
  destruct (endswith basename ".json"); reflexivity.
Qed.

Lemma classify_files dirs files acc :
  Forall (fun x => valid_name x = true) dirs -> Forall (fun x => valid_name x = true) files ->
  for_each (classify cwd data_dir (joined data_dir dirs)) files acc
  = inr (extend acc (map (pair dirs) files)).
Proof.
  intros Hd Hf. revert acc. induction Hf as [|b l Hb Hl IH]; intros acc; simpl.
  - rewrite extend_nil. reflexivity.
  - rewrite (classify_valid dirs acc b Hd Hb), IH, extend_app. reflexivity.
Qed.

Lemma valid_file_names children :
  forallb valid_entry children = true -> Forall (fun x => valid_name x = true) (file_names children).
Proof.
  induction children as [|e l IH]; simpl; [constructor|].
  intros Hv. apply andb_true_iff in Hv as [He Hl].
  destruct e as [n|n ch]; simpl; [constructor; [exact He|]|]; apply IH, Hl.
Qed.

Lemma walk_entry_spec e :
  forall dirs acc,
    valid_entry e = true -> Forall (fun x => valid_name x = true) dirs ->
    for_each (visit cwd data_dir) (walk_entry (joined data_dir dirs) e) acc
    = inr (extend acc (entry_files dirs e)).
Proof.
  induction e as [n|n children IH] using entry_ind_nested; intros dirs acc Hv Hd.
  - simpl. rewrite extend_nil. reflexivity.
  - cbn [valid_entry] in Hv. apply andb_true_iff in Hv as [Hn Hc].
    assert (Hd' : Forall (fun x => valid_name x = true) (dirs ++ [n])%list)
      by (apply Forall_app; split; [exact Hd|constructor; [exact Hn|constructor]]).
    cbn [walk_entry entry_files for_each]. rewrite <- joined_snoc.
    cbn [visit]. rewrite (classify_files (dirs ++ [n])%list _ acc Hd' (valid_file_names _ Hc)).
    rewrite <- extend_app.
    generalize (extend acc (map (pair (dirs ++ [n])%list) (file_names children))).
    clear acc. induction IH as [|e l He Hl IHl]; intros acc; simpl.
    + rewrite extend_nil. reflexivity.
    + cbn [forallb] in Hc. apply andb_true_iff in Hc as [Hve Hvl].
      rewrite for_each_app, (He _ _ Hve Hd'), (IHl Hvl), extend_app. reflexivity.
Qed.

Lemma get_all_filelist_spec tree :
  valid_tree tree = true ->
  get_all_filelist cwd tree data_dir
  = inr (bucket Metadata (tree_files tree), bucket Table (tree_files tree),
         bucket Element (tree_files tree), bucket Component (tree_files tree)).
Proof.
  intros Hv. unfold get_all_filelist, os_walk, tree_files.
  cbn [for_each visit].
  change (classify cwd data_dir data_dir) with (classify cwd data_dir (joined data_dir [])).
  rewrite (classify_files [] _ _ (List.Forall_nil _) (valid_file_names _ Hv)).
  assert (Hrest : forall acc,
    for_each (visit cwd data_dir) (flat_map (walk_entry data_dir) tree) acc
    = inr (extend acc (flat_map (entry_files []) tree))).
  { unfold valid_tree in Hv. induction tree as [|e l IHl]; intros acc; simpl.
    - rewrite extend_nil. reflexivity.
    - cbn [forallb] in Hv. apply andb_true_iff in Hv as [Hve Hvl].
      rewrite for_each_app.
      change (walk_entry data_dir e) with (walk_entry (joined data_dir []) e).
      rewrite (walk_entry_spec e [] acc Hve (List.Forall_nil _)), (IHl Hvl), extend_app.
      reflexivity. }
  rewrite Hrest, extend_app. reflexivity.
Qed.

End Classifier.

(** The enumeration the statements use is the one [os.walk] makes. *)
Lemma walked_entry_files data_dir e :
  forall dirs,
    flat_map (fun x => map (pair (fst (fst x))) (snd x)) (walk_entry (joined data_dir dirs) e)
    = map (fun f => (joined data_dir (fst f), snd f)) (entry_files dirs e).
Proof.
  induction e as [n|n children IH] using entry_ind_nested; intros dirs; [reflexivity|].
  cbn [walk_entry entry_files flat_map fst snd]. rewrite <- joined_snoc.
  rewrite map_app, map_map. cbn [fst snd]. f_equal.
  induction IH as [|e l He Hl IHl]; [reflexivity|].
  cbn [flat_map]. rewrite flat_map_app, map_app, He, IHl. reflexivity.
Qed.

Lemma walked_files_spec data_dir tree :
  walked_files data_dir tree
  = map (fun f => (joined data_dir (fst f), snd f)) (tree_files tree).
Proof.
  unfold walked_files, os_walk, tree_files.
  cbn [flat_map fst snd]. rewrite map_app, map_map. cbn [fst snd]. f_equal.
  induction tree as [|e l IHl]; [reflexivity|].
  cbn [flat_map]. rewrite flat_map_app, map_app, IHl.
  change (walk_entry data_dir e) with (walk_entry (joined data_dir []) e).
  rewrite walked_entry_files. reflexivity.
Qed.

(** *** The classification table *)

Lemma in_category_unique basename c1 c2 :
  in_category c1 basename = true -> in_category c2 basename = true -> c1 = c2.
Proof.
  unfold in_category. destruct (spec_category basename) as [c|]; [|discriminate].
  destruct c, c1, c2; simpl; congruence.
Qed.

Lemma in_category_not_reserved c basename :
  in_category c basename = true ->
  basename <> "METADATA.json" /\ basename <> "REFERENCES.json".
Proof.
  unfold in_category, spec_category.
  destruct (String.eqb basename "METADATA.json") eqn:E1; [discriminate|].
  destruct (String.eqb basename "REFERENCES.json") eqn:E2; [discriminate|].
  intros _. split; apply String.eqb_neq; assumption.
Qed.

Lemma buckets_length fs :
  length (bucket Metadata fs) + length (bucket Table fs)
  + length (bucket Element fs) + length (bucket Component fs) <= length fs.
Proof.
  unfold bucket. rewrite !length_map.
  induction fs as [|f fs IH]; [reflexivity|].
  cbn [List.filter].
  destruct (in_category Metadata (snd f)) eqn:E1, (in_category Table (snd f)) eqn:E2,
           (in_category Element (snd f)) eqn:E3, (in_category Component (snd f)) eqn:E4;
    cbn [length]; try lia;
    match goal with
    | Ha : in_category ?a _ = true, Hb : in_category ?b _ = true |- _ =>
        tryif constr_eq a b then fail else discriminate (in_category_unique _ _ _ Ha Hb)
    end.
Qed.

Lemma in_bucket c fs p :
  In p (bucket c fs) ->
  exists f, In f fs /\ p = relative_path f /\ in_category c (snd f) = true.
Proof.
  unfold bucket. intros Hp. apply in_map_iff in Hp as (f & <- & Hf).
  apply List.filter_In in Hf as [Hf Hc]. eauto.
Qed.

Lemma last_char_cons c s : String.eqb s "" = false -> last_char (String c s) = last_char s.
Proof. destruct s; [discriminate|reflexivity]. Qed.

Lemma endswith_last_char s suffix :
  String.eqb suffix "" = false -> endswith s suffix = true -> last_char s = last_char suffix.
Proof.
  intros Hs. induction s as [|c s IH]; cbn [endswith].
  - rewrite orb_false_r. intros E. apply String.eqb_eq in E. subst suffix. discriminate.
  - intros E. apply orb_true_iff in E as [E|E].
    + apply String.eqb_eq in E. subst suffix. reflexivity.
    + rewrite last_char_cons; [exact (IH E)|].
      destruct s; [|reflexivity].
      cbn [endswith] in E. rewrite orb_false_r in E.
      apply String.eqb_eq in E. subst suffix. discriminate.
Qed.

Lemma endswith_other_last_char s suffix other :
  String.eqb suffix "" = false -> String.eqb other "" = false ->
  last_char suffix <> last_char other ->
  endswith s suffix = true -> endswith s other = false.
Proof.
  intros Hs Ho Hne E. destruct (endswith s other) eqn:E'; [|reflexivity].
  apply endswith_last_char in E, E'; try assumption. congruence.
Qed.

Lemma bz2_name_has_no_category basename :
  endswith basename ".bz2" = true -> spec_category basename = None.
Proof.
  intros E. unfold spec_category.
  rewrite (endswith_other_last_char basename ".bz2" ".metadata.json"),
          (endswith_other_last_char basename ".bz2" ".table.json"),
          (endswith_other_last_char basename ".bz2" ".element.json"),
          (endswith_other_last_char basename ".bz2" ".json")
    by (reflexivity || discriminate || assumption).
  destruct (String.eqb basename "METADATA.json" || String.eqb basename "REFERENCES.json");
    reflexivity.
Qed.

Lemma path_join_nonempty a b : String.eqb b "" = false -> String.eqb (path_join a b) "" = false.
Proof.
  intros Hb. unfold path_join.
  destruct (startswith b "/"); [exact Hb|].
  destruct (String.eqb a "" || endswith a "/"); apply append_nonempty;
    [exact Hb|reflexivity].
Qed.

Lemma relpath_total cwd path start :
  String.eqb path "" = false -> exists p, relpath cwd path start = inr p.
Proof.
  intros Hp. unfold relpath. rewrite Hp.
  match goal with |- context [match ?l with [] => _ | _ => _ end] => destruct l end; eauto.
Qed.

(** The list a path goes to depends on the basename alone; the root, the
    dataset directory and the working directory only shape the path. *)
Lemma classify_place cwd data_dir root acc basename :
  String.eqb basename "" = false ->
  exists p, classify cwd data_dir root acc basename
            = inr (place (spec_category basename) p acc).
Proof.
  intros Hb.
  destruct (relpath_total cwd (path_join root basename) data_dir
              (path_join_nonempty root basename Hb)) as [p Hp].
  exists p. unfold classify, spec_category, special.
  cbn [existsb]. rewrite orb_false_r, Hp.
  destruct (String.eqb basename "METADATA.json" || String.eqb basename "REFERENCES.json");
    [reflexivity|].
  destruct (endswith basename ".metadata.json"); [reflexivity|].
  destruct (endswith basename ".table.json"); [reflexivity|].
  destruct (endswith basename ".element.json"); [reflexivity|].
  destruct (endswith basename ".json"); reflexivity.
Qed.

Lemma in_category_tests basename :
  in_category Metadata basename
  = negb (reserved basename) && endswith basename ".metadata.json"
  /\ in_category Table basename
     = negb (reserved basename) && negb (endswith basename ".metadata.json")
       && endswith basename ".table.json"
  /\ in_category Element basename
     = negb (reserved basename) && negb (endswith basename ".metadata.json")
       && negb (endswith basename ".table.json") && endswith basename ".element.json"
  /\ in_category Component basename
     = negb (reserved basename) && negb (endswith basename ".metadata.json")
       && negb (endswith basename ".table.json") && negb (endswith basename ".element.json")
       && endswith basename ".json".
Proof.
  unfold in_category, spec_category, reserved.
  destruct (String.eqb basename "METADATA.json" || String.eqb basename "REFERENCES.json");
    [repeat split|].
  destruct (endswith basename ".metadata.json"); [repeat split|].
  destruct (endswith basename ".table.json"); [repeat split|].
  destruct (endswith basename ".element.json"); [repeat split|].
  destruct (endswith basename ".json"); repeat split.
Qed.

(** ** Claims about the classifier *)

(** C3.  The classifier puts every file the walk yields, other than the
    two reserved names, into at most one of the four lists: the result is
    the partition of the enumerated files by the first matching suffix, in
    the order .metadata.json, .table.json, .element.json, .json; a name
    that matches an earlier suffix is in no later list, and a name that
    matches none of the suffixes is in no list. *)
Theorem C3_first_matching_suffix_decides_the_category
    (cwd data_dir : string) (tree : list entry) :
  startswith cwd "/" = true ->
  valid_tree tree = true ->
  let fs := tree_files tree in
  walked_files data_dir tree = map (fun f => (joined data_dir (fst f), snd f)) fs
  /\ get_all_filelist cwd tree data_dir
     = inr (bucket Metadata fs, bucket Table fs, bucket Element fs, bucket Component fs)
  /\ length (bucket Metadata fs) + length (bucket Table fs)
     + length (bucket Element fs) + length (bucket Component fs) <= length fs
  /\ (forall basename c1 c2,
        in_category c1 basename = true -> in_category c2 basename = true -> c1 = c2)
  /\ (forall basename,
        in_category Metadata basename
        = negb (reserved basename) && endswith basename ".metadata.json"
        /\ in_category Table basename
           = negb (reserved basename) && negb (endswith basename ".metadata.json")
             && endswith basename ".table.json"
        /\ in_category Element basename
           = negb (reserved basename) && negb (endswith basename ".metadata.json")
             && negb (endswith basename ".table.json")
             && endswith basename ".element.json"
        /\ in_category Component basename
           = negb (reserved basename) && negb (endswith basename ".metadata.json")
             && negb (endswith basename ".table.json")
             && negb (endswith basename ".element.json")
             && endswith basename ".json")
  /\ (forall basename,
        endswith basename ".metadata.json" = false ->
        endswith basename ".table.json" = false ->
        endswith basename ".element.json" = false ->
        endswith basename ".json" = false ->
        forall c, in_category c basename = false).
Proof.
  intros Hcwd Hv fs.
  split; [apply walked_files_spec|].
  split; [apply get_all_filelist_spec; assumption|].
  split; [apply buckets_length|].
  split; [apply in_category_unique|].
  split; [apply in_category_tests|].
  intros basename E1 E2 E3 E4 c.
  destruct (in_category_tests basename) as (T1 & T2 & T3 & T4).
  destruct c; [rewrite T1, E1|rewrite T2, E2|rewrite T3, E3|rewrite T4, E4];
    apply andb_false_r.
Qed.

(** C7.  The classifier skips a file whose basename is exactly
    METADATA.json or REFERENCES.json wherever it lies in the tree, and
    puts it in no list; names that differ from these in case are
    classified like any other.  Every path returned is the path of an
    enumerated file relative to the dataset root: its directory names and
    its basename joined by slashes.  On the tree of the spec's example the
    result is the one the spec gives. *)
Theorem C7_reserved_names_are_skipped_and_paths_are_relative
    (cwd data_dir : string) (tree : list entry) :
  startswith cwd "/" = true ->
  valid_tree tree = true ->
  (forall root acc,
     classify cwd data_dir root acc "METADATA.json" = inr acc
     /\ classify cwd data_dir root acc "REFERENCES.json" = inr acc)
  /\ (exists metas tables elements components,
        get_all_filelist cwd tree data_dir = inr (metas, tables, elements, components)
        /\ forall p,
             In p (metas ++ tables ++ elements ++ components)%list ->
             exists dirs basename,
               In (dirs, basename) (tree_files tree)
               /\ p = String.concat "/" (dirs ++ [basename])
               /\ basename <> "METADATA.json" /\ basename <> "REFERENCES.json")
  /\ get_all_filelist cwd [FileEntry "metadata.json"; FileEntry "References.json"] data_dir
     = inr ([], [], [], ["metadata.json"; "References.json"])
  /\ get_all_filelist cwd example_tree data_dir
     = inr (["c.metadata.json"], ["b.table.json"],
            ["a.element.json"; "sub/e.element.json"], ["d.json"]).
Proof.
  intros Hcwd Hv. split; [|split; [|split]].
  - intros root acc. split; reflexivity.
  - do 4 eexists. split; [apply get_all_filelist_spec; assumption|].
    intros p Hp.
    assert (Hc : exists c, In p (bucket c (tree_files tree))).
    { repeat (apply in_app_or in Hp as [Hp|Hp]); eauto. }
    destruct Hc as [c Hc].
    apply in_bucket in Hc as ([dirs basename] & Hf & -> & Hcat).
    exists dirs, basename. split; [exact Hf|]. split; [reflexivity|].
    apply (in_category_not_reserved c). exact Hcat.
  - rewrite get_all_filelist_spec by (assumption || reflexivity). reflexivity.
  - rewrite get_all_filelist_spec by (assumption || reflexivity). reflexivity.
Qed.

Section CompressedNames.
Context `{Bz2} `{Json}.

(** C9.  Classification looks at the basename alone: the list a file
    goes to is a function of its basename, whatever the directory it is
    found in.  A basename that ends in .bz2 goes to no list, at any depth,
    so a tree holding only x.element.json.bz2 classifies to four empty
    lists; the JSON accessor, for its part, compresses on writing to such
    a path and decompresses on reading it. *)
Theorem C9_compressed_names_are_in_no_category
    (cwd data_dir basename : string) :
  endswith basename ".bz2" = true ->
  (forall root acc, classify cwd data_dir root acc basename = inr acc)
  /\ (forall c, in_category c basename = false)
  /\ (forall name root acc,
        String.eqb name "" = false ->
        exists p, classify cwd data_dir root acc name
                  = inr (place (spec_category name) p acc))
  /\ get_all_filelist cwd [FileEntry "x.element.json.bz2"] data_dir = inr ([], [], [], [])
  /\ get_all_filelist cwd [DirEntry "sub" [FileEntry "x.element.json.bz2"]] data_dir
     = inr ([], [], [], [])
  /\ (forall js,
        encoded basename js = bz2_compress (json_dumps js 2)
        /\ text_of basename (encoded basename js) = inr (json_dumps js 2)).
Proof.
  intros E.
  assert (Hne : String.eqb basename "" = false).
  { destruct basename; [discriminate E|reflexivity]. }
  pose proof (bz2_name_has_no_category basename E) as Hnone.
  assert (Hskip : forall b, endswith b ".bz2" = true ->
            forall root acc, classify cwd data_dir root acc b = inr acc).
  { intros b Eb root acc.
    assert (Hb : String.eqb b "" = false) by (destruct b; [discriminate Eb|reflexivity]).
    destruct (classify_place cwd data_dir root acc b Hb) as [p ->].
    rewrite (bz2_name_has_no_category b Eb). reflexivity. }
  split; [exact (Hskip basename E)|].
  split; [intros c; unfold in_category; rewrite Hnone; reflexivity|].
  split; [intros name root acc Hn; apply classify_place; exact Hn|].
  split; [|split].
  - unfold get_all_filelist, os_walk. cbn [flat_map walk_entry app file_names for_each visit].
    rewrite (Hskip "x.element.json.bz2") by reflexivity. reflexivity.
  - unfold get_all_filelist, os_walk. cbn [flat_map walk_entry app file_names for_each visit].
    rewrite (Hskip "x.element.json.bz2") by reflexivity. reflexivity.
  - intros js. split; [unfold encoded; rewrite E; reflexivity|].
    unfold text_of, encoded, decoded. rewrite E, bz2_roundtrip. reflexivity.
Qed.

End CompressedNames.

(** ** The reference codec decodes what it encodes *)

Section JsonRoundTrip.
Import RefJson.

(** ** Strings *)

Lemma length_append a b : String.length (a +:+ b) = String.length a + String.length b.
Proof. induction a as [|x a IH]; simpl; [reflexivity|rewrite IH; reflexivity]. Qed.

Lemma scanstring_escape_char c r fuel :
  scanstring_fuel (S fuel) (escape_char c +:+ r)
  = prepend (String c "") (scanstring_fuel fuel r).
Proof. destruct c as [[] [] [] [] [] [] [] []]; reflexivity. Qed.

Lemma length_escape_char c : 1 <= String.length (escape_char c).
Proof. destruct c as [[] [] [] [] [] [] [] []]; simpl; lia. Qed.

Lemma length_escape s : String.length s <= String.length (escape s).
Proof.
  induction s as [|c s IH]; simpl; [lia|].
  rewrite length_append. pose proof (length_escape_char c). lia.
Qed.

Lemma scanstring_fuel_escape s rest fuel :
  String.length s < fuel ->
  scanstring_fuel fuel (escape s +:+ String dquote rest) = Some (s, rest).
Proof.
  revert fuel. induction s as [|c s IH]; intros fuel Hf.
  - destruct fuel; [lia|]. reflexivity.
  - destruct fuel; [lia|]. cbn [escape]. rewrite append_assoc, scanstring_escape_char.
    rewrite IH by (simpl in Hf; lia). reflexivity.
Qed.

Lemma scanstring_encoded s rest :
  scanstring (escape s +:+ String dquote rest) = Some (s, rest).
Proof.
  unfold scanstring. apply scanstring_fuel_escape.
  rewrite length_append. pose proof (length_escape s). simpl. lia.
Qed.

(** ** Integers *)

Lemma span_digits_stop rest : no_digit_ahead rest = true -> span_digits rest = ("", rest).
Proof.
  destruct rest as [|c r]; [reflexivity|]. simpl. intros E.
  apply negb_true_iff in E. rewrite E. reflexivity.
Qed.

Lemma span_digits_uint d rest :
  no_digit_ahead rest = true ->
  span_digits (NilEmpty.string_of_uint d +:+ rest) = (NilEmpty.string_of_uint d, rest).
Proof.
  intros E. induction d; cbn [NilEmpty.string_of_uint String.append];
    [apply span_digits_stop; exact E| ..];
    cbn [span_digits]; rewrite IHd; reflexivity.
Qed.

Lemma number_ends_no_digit rest : number_ends rest = true -> no_digit_ahead rest = true.
Proof.
  destruct rest as [|c r]; [reflexivity|]. simpl. intros E.
  repeat (apply andb_true_iff in E as [E _]). exact E.
Qed.

Lemma scan_frac_stop rest : number_ends rest = true -> scan_frac rest = ("", rest).
Proof.
  destruct rest as [|c r]; [reflexivity|]. unfold scan_frac, number_ends, expect.
  intros E. apply andb_true_iff in E as [E _]. apply andb_true_iff in E as [E _].
  apply andb_true_iff in E as [_ E]. apply negb_true_iff in E. rewrite E. reflexivity.
Qed.

Lemma scan_exp_stop rest : number_ends rest = true -> scan_exp rest = ("", rest).
Proof.
  destruct rest as [|c r]; [reflexivity|]. unfold scan_exp, number_ends.
  intros E. apply andb_true_iff in E as [E E4]. apply andb_true_iff in E as [_ E3].
  apply negb_true_iff in E3, E4. rewrite E3, E4. reflexivity.
Qed.

Lemma to_uint_normal p : Decimal.unorm (Pos.to_uint p) = Pos.to_uint p.
Proof.
  change (Pos.to_uint p) with (N.to_uint (N.pos p)) at 2.
  rewrite <- (DecimalPos.Unsigned.of_to p).
  change (Pos.of_uint (Pos.to_uint p)) with (N.of_uint (Pos.to_uint p)).
  symmetry. apply DecimalN.Unsigned.to_of.
Qed.

Lemma to_uint_no_leading_zero p d : Pos.to_uint p <> Decimal.D0 d.
Proof.
  intros E. pose proof (to_uint_normal p) as Hn. rewrite E in Hn.
  unfold Decimal.unorm in Hn.
  destruct (Decimal.nzhead (Decimal.D0 d)) eqn:Hz; try discriminate Hn.
  - injection Hn as <-. exact (DecimalPos.Unsigned.to_uint_nonzero p E).
  - exact (DecimalFacts.nzhead_nonzero _ _ Hz).
Qed.

Lemma of_uint_to_uint p : Z.of_uint (Pos.to_uint p) = Z.pos p.
Proof. unfold Z.of_uint. rewrite DecimalPos.Unsigned.of_to. reflexivity. Qed.

Lemma digits_to_Z_uint (neg : bool) (d : Decimal.uint) :
  digits_to_Z neg (NilEmpty.string_of_uint d)
  = Some (if neg then Z.opp (Z.of_uint d) else Z.of_uint d).
Proof. unfold digits_to_Z. rewrite NilEmpty.usu. reflexivity. Qed.

(** The digits of a positive number: not empty, and not led by a zero. *)
Lemma to_uint_string p :
  exists c ds,
    NilEmpty.string_of_uint (Pos.to_uint p) = String c ds
    /\ is_digit c = true /\ Ascii.eqb c "0" = false /\ Ascii.eqb c "-" = false.
Proof.
  pose proof (DecimalPos.Unsigned.to_uint_nonnil p) as Hnil.
  pose proof (to_uint_no_leading_zero p) as Hz.
  destruct (Pos.to_uint p) as [|d|d|d|d|d|d|d|d|d|d]; [congruence|exfalso; exact (Hz d eq_refl)|..];
    cbn [NilEmpty.string_of_uint]; do 2 eexists; (split; [reflexivity|]); repeat split.
Qed.

Lemma scan_number_digits (neg : bool) c ds rest z :
  span_digits (String c ds +:+ rest) = (String c ds, rest) ->
  Ascii.eqb c "0" = false -> Ascii.eqb c "-" = false ->
  number_ends rest = true ->
  digits_to_Z neg (String c ds) = Some z ->
  scan_number ((if neg then "-" else "") +:+ String c ds +:+ rest) = Some (PyInt z, rest).
Proof.
  intros Hspan H0 Hm E Hz. unfold scan_number.
  destruct neg.
  - cbn [String.append expect]. rewrite Ascii.eqb_refl.
    change (String c (ds +:+ rest)) with (String c ds +:+ rest).
    rewrite Hspan, H0, (scan_frac_stop rest E), (scan_exp_stop rest E).
    rewrite String.eqb_refl. cbn [andb]. rewrite Hz. reflexivity.
  - cbn [String.append expect]. rewrite Hm.
    change (String c (ds +:+ rest)) with (String c ds +:+ rest).
    rewrite Hspan, H0, (scan_frac_stop rest E), (scan_exp_stop rest E).
    rewrite String.eqb_refl. cbn [andb]. rewrite Hz. reflexivity.
Qed.

Lemma scan_number_positive (neg : bool) (p : positive) (rest : string) :
  number_ends rest = true ->
  scan_number ((if neg then "-" else "") +:+ NilEmpty.string_of_uint (Pos.to_uint p) +:+ rest)
  = Some (PyInt (if neg then Z.neg p else Z.pos p), rest).
Proof.
  intros E. destruct (to_uint_string p) as (c & ds & Hs & Hd & H0 & Hm).
  pose proof (span_digits_uint (Pos.to_uint p) rest (number_ends_no_digit rest E)) as Hspan.
  pose proof (digits_to_Z_uint neg (Pos.to_uint p)) as Hz.
  rewrite of_uint_to_uint in Hz. rewrite Hs in *.
  apply scan_number_digits; assumption.
Qed.

Lemma scan_number_zero rest :
  number_ends rest = true -> scan_number ("0" +:+ rest) = Some (PyInt 0, rest).
Proof.
  intros E. unfold scan_number. cbn [String.append expect].
  replace (Ascii.eqb "0" "-") with false by reflexivity.
  cbn [span_digits]. replace (is_digit "0") with true by reflexivity.
  rewrite (span_digits_stop rest (number_ends_no_digit rest E)).
  rewrite Ascii.eqb_refl. cbn [String.append].
  rewrite (scan_frac_stop rest E), (scan_exp_stop rest E).
  rewrite String.eqb_refl. reflexivity.
Qed.

Lemma scan_number_int n rest :
  number_ends rest = true -> scan_number (int_repr n +:+ rest) = Some (PyInt n, rest).
Proof.
  intros E. unfold int_repr. destruct n as [|p|p]; cbn [Z.to_int NilEmpty.string_of_int].
  - apply scan_number_zero. exact E.
  - apply (scan_number_positive false p rest E).
  - apply (scan_number_positive true p rest E).
Qed.

(** ** White space and the first character of a value *)

Lemma skip_ws_spaces n s : skip_ws (spaces n +:+ s) = skip_ws s.
Proof. induction n as [|n IH]; [reflexivity|]. simpl. exact IH. Qed.

Lemma skip_ws_newline_indent indent level s :
  skip_ws (newline_indent indent level +:+ s) = skip_ws s.
Proof. unfold newline_indent. simpl. apply skip_ws_spaces. Qed.

Lemma skip_ws_stop c s : is_ws c = false -> skip_ws (String c s) = String c s.
Proof. intros E. simpl. rewrite E. reflexivity. Qed.

Lemma skip_ws_value s : starts_value s -> skip_ws s = s.
Proof.
  intros (c & t & -> & Hc). apply skip_ws_stop.
  unfold value_start in Hc. repeat (apply andb_true_iff in Hc as [Hc _]).
  apply negb_true_iff in Hc. exact Hc.
Qed.

Lemma starts_value_app s t : starts_value s -> starts_value (s +:+ t).
Proof. intros (c & u & -> & Hc). exists c, (u +:+ t). split; [reflexivity|exact Hc]. Qed.

Lemma expect_value_none c s :
  starts_value s -> (c = "]" \/ c = "}" \/ c = ",")%char -> expect c s = None.
Proof.
  intros (d & t & -> & Hd) Hc. unfold expect, value_start in *.
  apply andb_true_iff in Hd as [Hd H3]. apply andb_true_iff in Hd as [Hd H2].
  apply andb_true_iff in Hd as [_ H1]. apply negb_true_iff in H1, H2, H3.
  destruct Hc as [-> | [-> | ->]]; [rewrite H1|rewrite H2|rewrite H3]; reflexivity.
Qed.

Lemma digit_value_start c : is_digit c = true \/ c = "-"%char -> value_start c = true.
Proof.
  destruct c as [[] [] [] [] [] [] [] []]; intros [E|E];
    try discriminate E; reflexivity.
Qed.

Lemma int_repr_head n :
  exists c t, int_repr n = String c t /\ (is_digit c = true \/ c = "-"%char).
Proof.
  unfold int_repr. destruct n as [|p|p]; cbn [Z.to_int NilEmpty.string_of_int].
  - exists "0"%char, "". split; [reflexivity|left; reflexivity].
  - destruct (to_uint_string p) as (c & ds & Hs & Hd & _). exists c, ds. auto.
  - eexists _, _. split; [reflexivity|right; reflexivity].
Qed.

Lemma iterencode_starts_value indent level v :
  well_formed v = true -> starts_value (iterencode indent level v).
Proof.
  intros Hw. destruct v as [|[]|n|l|s|items|items]; try discriminate Hw;
    try (eexists _, _; split; [reflexivity|reflexivity]).
  - destruct (int_repr_head n) as (c & t & Hs & Hc).
    exists c, t. split; [exact Hs|apply digit_value_start; exact Hc].
  - destruct items; eexists _, _; (split; [reflexivity|reflexivity]).
  - destruct items; eexists _, _; (split; [reflexivity|reflexivity]).
Qed.

(** ** The branches of scan_once *)

Lemma number_head_tests c :
  is_digit c = true \/ c = "-"%char ->
  Ascii.eqb c dquote = false /\ Ascii.eqb c "[" = false /\ Ascii.eqb c "{" = false
  /\ Ascii.eqb c "n" = false /\ Ascii.eqb c "t" = false /\ Ascii.eqb c "f" = false.
Proof.
  destruct c as [[] [] [] [] [] [] [] []]; intros [E|E];
    try discriminate E; repeat split.
Qed.

Lemma scan_once_int fuel n rest :
  number_ends rest = true ->
  scan_once (S fuel) (int_repr n +:+ rest) = Some (PyInt n, rest).
Proof.
  intros E. pose proof (scan_number_int n rest E) as Hn.
  destruct (int_repr_head n) as (c & t & Hs & Hc). rewrite Hs in *.
  destruct (number_head_tests c Hc) as (H1 & H2 & H3 & H4 & H5 & H6).
  cbn [String.append scan_once]. rewrite H1, H2, H3, H4, H5, H6.
  cbn [String.append] in Hn. rewrite Hn. reflexivity.
Qed.

Lemma scan_once_str fuel s rest :
  scan_once (S fuel) (encode_basestring s +:+ rest) = Some (PyStr s, rest).
Proof.
  unfold encode_basestring. cbn [String.append scan_once].
  rewrite Ascii.eqb_refl, append_assoc. cbn [String.append].
  rewrite scanstring_encoded. reflexivity.
Qed.

Lemma number_ends_newline_indent indent level s :
  number_ends (newline_indent indent level +:+ s) = true.
Proof. reflexivity. Qed.

Lemma number_ends_comma s : number_ends (String "," s) = true.
Proof. reflexivity. Qed.


Lemma concat_cons2 sep x y l :
  String.concat sep (x :: y :: l) = x +:+ sep +:+ String.concat sep (y :: l).
Proof. reflexivity. Qed.

Lemma concat_map_cons2 {A} (f : A -> string) sep x y l :
  String.concat sep (map f (x :: y :: l))
  = f x +:+ sep +:+ String.concat sep (map f (y :: l)).
Proof. reflexivity. Qed.

Lemma concat_starts_value sep x l tail :
  starts_value x -> starts_value (String.concat sep (x :: l) +:+ tail).
Proof.
  intros Hx. destruct l as [|y l]; [apply starts_value_app; exact Hx|].
  rewrite concat_cons2, append_assoc. apply starts_value_app. exact Hx.
Qed.

Lemma length_item_separator indent level : 2 <= String.length (item_separator indent level).
Proof. unfold item_separator, newline_indent. simpl. lia. Qed.

Lemma json_array_items indent items :
  Forall (parses indent) items -> items <> [] -> forallb well_formed items = true ->
  forall level rest fuel,
    String.length (String.concat (item_separator indent (S level))
                     (map (iterencode indent (S level)) items)) + 1 < fuel ->
    json_array fuel
      (String.concat (item_separator indent (S level)) (map (iterencode indent (S level)) items)
       +:+ newline_indent indent level +:+ "]" +:+ rest)
    = Some (items, rest).
Proof.
  induction 1 as [|x l Hx Hl IH]; [congruence|]. intros _ Hw level rest fuel Hf.
  cbn [forallb] in Hw. apply andb_true_iff in Hw as [Hwx Hwl].
  destruct fuel as [|fuel]; [lia|]. unfold parses in Hx.
  destruct l as [|y l].
  - cbn [map String.concat] in *. cbn [json_array].
    rewrite Hx by (assumption || lia || reflexivity).
    rewrite (skip_ws_newline_indent indent level). reflexivity.
  - rewrite concat_map_cons2 in Hf |- *. rewrite !length_append in Hf.
    pose proof (length_item_separator indent (S level)) as Hsep.
    rewrite !append_assoc. cbn [json_array].
    unfold item_separator at 1. rewrite append_assoc. cbn [String.append].
    rewrite Hx by (assumption || lia || reflexivity).
    cbn [skip_ws is_ws]. replace (is_ws ",") with false by reflexivity.
    cbn [expect]. replace (Ascii.eqb "," "]") with false by reflexivity.
    rewrite Ascii.eqb_refl, (skip_ws_newline_indent indent (S level)).
    change (String "]" rest) with ("]" +:+ rest).
    assert (Hsv : starts_value
              (String.concat (item_separator indent (S level))
                 (map (iterencode indent (S level)) (y :: l))
               +:+ newline_indent indent level +:+ "]" +:+ rest)).
    { rewrite map_cons. apply concat_starts_value, iterencode_starts_value.
      cbn [forallb] in Hwl. apply andb_true_iff in Hwl as [Hwy _]. exact Hwy. }
    rewrite (skip_ws_value _ Hsv).
    rewrite (IH ltac:(discriminate) Hwl level rest fuel) by lia.
    reflexivity.
Qed.

Lemma member_parse indent level kv rest fuel :
  parses indent (snd kv) -> well_formed (snd kv) = true ->
  String.length (member indent level kv) < fuel ->
  number_ends rest = true ->
  match expect dquote (member indent level kv +:+ rest) with
  | None => None
  | Some r =>
      match scanstring r with
      | None => None
      | Some (key, rest0) =>
          match expect ":" (skip_ws rest0) with
          | None => None
          | Some rest1 =>
              match scan_once fuel (skip_ws rest1) with
              | None => None
              | Some (v, rest2) => Some (key, v, rest2)
              end
          end
      end
  end = Some (fst kv, snd kv, rest).
Proof.
  intros Hp Hw Hf Hr. destruct kv as [k v]. cbn [fst snd] in *. unfold parses in Hp.
  unfold member, encode_basestring in *. cbn [fst snd] in *.
  rewrite !append_assoc. cbn [String.append expect].
  rewrite Ascii.eqb_refl, append_assoc. cbn [String.append].
  rewrite scanstring_encoded.
  cbn [skip_ws]. replace (is_ws ":") with false by reflexivity.
  cbn [expect]. rewrite Ascii.eqb_refl.
  cbn [skip_ws]. replace (is_ws " ") with true by reflexivity.
  rewrite (skip_ws_value _ (starts_value_app _ _ (iterencode_starts_value indent level v Hw))).
  rewrite (Hp level rest fuel Hw); [reflexivity| |exact Hr].
  cbn [String.append String.length] in Hf. rewrite !length_append in Hf.
  cbn [String.length] in Hf. lia.
Qed.

Ltac use_member Hm :=
  match type of Hm with
  | Some (?k, ?v, ?r) = Some (?k', ?v', ?r') =>
      let Ek := fresh in let Ev := fresh in let Er := fresh in
      assert (Ek : k = k') by congruence;
      assert (Ev : v = v') by congruence;
      assert (Er : r = r') by congruence;
      rewrite Ek, Ev, Er; clear Hm Ek Ev Er
  end.

Lemma json_object_members indent items :
  Forall (fun kv => parses indent (snd kv)) items -> items <> [] ->
  forallb (fun kv => well_formed (snd kv)) items = true ->
  forall level rest fuel,
    String.length (String.concat (item_separator indent (S level)) (map (member indent (S level)) items)) + 1
    < fuel ->
    json_object fuel
      (String.concat (item_separator indent (S level)) (map (member indent (S level)) items)
       +:+ newline_indent indent level +:+ "}" +:+ rest)
    = Some (items, rest).
Proof.
  induction 1 as [|x l Hx Hl IH]; [congruence|]. intros _ Hw level rest fuel Hf.
  cbn [forallb] in Hw. apply andb_true_iff in Hw as [Hwx Hwl].
  destruct fuel as [|fuel]; [lia|].
  destruct l as [|y l].
  - cbn [map String.concat] in *. cbn [json_object].
    pose proof (member_parse indent (S level) x (newline_indent indent level +:+ "}" +:+ rest) fuel
                  Hx Hwx ltac:(lia) eq_refl) as Hm.
    destruct (expect dquote _) as [r|]; [|discriminate Hm].
    destruct (scanstring r) as [[key rest0]|]; [|discriminate Hm].
    destruct (expect ":" _) as [rest1|]; [|discriminate Hm].
    destruct (scan_once fuel _) as [[v rest2]|]; [|discriminate Hm].
    use_member Hm.
    rewrite (skip_ws_newline_indent indent level). cbn [String.append skip_ws].
    replace (is_ws "}") with false by reflexivity.
    cbn [expect]. rewrite Ascii.eqb_refl. destruct x; reflexivity.
  - rewrite concat_map_cons2 in Hf |- *. rewrite !length_append in Hf.
    pose proof (length_item_separator indent (S level)) as Hsep.
    rewrite !append_assoc. cbn [json_object].
    unfold item_separator at 1. rewrite append_assoc. cbn [String.append].
    pose proof (member_parse indent (S level) x
                  (String ","
                     (newline_indent indent (S level)
                      +:+ String.concat (item_separator indent (S level))
                            (map (member indent (S level)) (y :: l))
                      +:+ newline_indent indent level +:+ String "}" rest))
                  fuel Hx Hwx ltac:(lia) eq_refl) as Hm.
    destruct (expect dquote _) as [r|]; [|discriminate Hm].
    destruct (scanstring r) as [[key rest0]|]; [|discriminate Hm].
    destruct (expect ":" _) as [rest1|]; [|discriminate Hm].
    destruct (scan_once fuel _) as [[v rest2]|]; [|discriminate Hm].
    use_member Hm.
    cbn [skip_ws]. replace (is_ws ",") with false by reflexivity.
    cbn [expect]. replace (Ascii.eqb "," "}") with false by reflexivity.
    rewrite Ascii.eqb_refl, (skip_ws_newline_indent indent (S level)).
    assert (Hsv : starts_value
              (String.concat (item_separator indent (S level)) (map (member indent (S level)) (y :: l))
               +:+ newline_indent indent level +:+ String "}" rest)).
    { rewrite map_cons. apply concat_starts_value.
      unfold member, encode_basestring. eexists _, _. split; reflexivity. }
    rewrite (skip_ws_value _ Hsv).
    change (String "}" rest) with ("}" +:+ rest).
    rewrite (IH ltac:(discriminate) Hwl level rest fuel) by lia.
    destruct x; reflexivity.
Qed.

Lemma scan_once_iterencode indent v : parses indent v.
Proof.
  induction v as [|b|n|l|s|items IH|items IH] using pyval_ind_nested;
    intros level rest fuel Hw Hf Hr; (destruct fuel as [|fuel]; [lia|]).
  - reflexivity.
  - destruct b; reflexivity.
  - apply scan_once_int. exact Hr.
  - discriminate Hw.
  - apply scan_once_str.
  - destruct items as [|x l]; [reflexivity|].
    cbn [well_formed] in Hw.
    cbn [iterencode] in *. fold (item_separator indent (S level)) in *.
    rewrite !length_append in Hf. cbn [String.length] in Hf.
    rewrite !append_assoc. cbn [String.append scan_once].
    replace (Ascii.eqb "[" dquote) with false by reflexivity.
    rewrite Ascii.eqb_refl, (skip_ws_newline_indent indent (S level)).
    assert (Hsv : starts_value
              (String.concat (item_separator indent (S level))
                 (map (iterencode indent (S level)) (x :: l))
               +:+ newline_indent indent level +:+ "]" +:+ rest)).
    { rewrite map_cons. apply concat_starts_value, iterencode_starts_value.
      cbn [forallb] in Hw. apply andb_true_iff in Hw as [Hwx _]. exact Hwx. }
    change (String "]" rest) with ("]" +:+ rest).
    rewrite (skip_ws_value _ Hsv), (expect_value_none "]" _ Hsv) by auto.
    rewrite (json_array_items indent (x :: l) IH ltac:(discriminate) Hw level rest fuel) by lia.
    reflexivity.
  - destruct items as [|x l]; [reflexivity|].
    cbn [well_formed] in Hw. apply andb_true_iff in Hw as [_ Hw].
    cbn [iterencode] in *.
    change (fun kv : string * pyval =>
              encode_basestring (fst kv) +:+ ": " +:+ iterencode indent (S level) (snd kv))
      with (member indent (S level)) in *.
    fold (item_separator indent (S level)) in *.
    rewrite !length_append in Hf. cbn [String.length] in Hf.
    rewrite !append_assoc. cbn [String.append scan_once].
    replace (Ascii.eqb "{" dquote) with false by reflexivity.
    replace (Ascii.eqb "{" "[") with false by reflexivity.
    rewrite Ascii.eqb_refl, (skip_ws_newline_indent indent (S level)).
    assert (Hsv : starts_value
              (String.concat (item_separator indent (S level)) (map (member indent (S level)) (x :: l))
               +:+ newline_indent indent level +:+ "}" +:+ rest)).
    { rewrite map_cons. apply concat_starts_value.
      unfold member, encode_basestring. eexists _, _. split; reflexivity. }
    change (String "}" rest) with ("}" +:+ rest).
    rewrite (skip_ws_value _ Hsv), (expect_value_none "}" _ Hsv) by auto.
    rewrite (json_object_members indent (x :: l) IH ltac:(discriminate) Hw level rest fuel) by lia.
    reflexivity.
Qed.


(** ** Dictionaries with distinct keys *)

Lemma dict_set_fresh k v d :
  existsb (String.eqb k) (map fst d) = false -> dict_set k v d = (d ++ [(k, v)])%list.
Proof.
  induction d as [|[k' v'] d IH]; cbn [dict_set map fst existsb app]; [reflexivity|].
  intros E. apply orb_false_iff in E as [E1 E2].
  rewrite String.eqb_sym, E1, (IH E2). reflexivity.
Qed.

Lemma existsb_app_false {A} (f : A -> bool) l1 l2 :
  existsb f l1 = false -> existsb f l2 = false -> existsb f (l1 ++ l2) = false.
Proof. intros E1 E2. rewrite existsb_app, E1, E2. reflexivity. Qed.

Lemma dict_of_distinct_pairs pairs acc :
  distinct (map fst pairs) = true ->
  (forall k, In k (map fst pairs) -> existsb (String.eqb k) (map fst acc) = false) ->
  fold_left (fun d kv => dict_set (fst kv) (snd kv) d) pairs acc = (acc ++ pairs)%list.
Proof.
  revert acc. induction pairs as [|[k v] pairs IH]; intros acc Hd Hfresh.
  - cbn. rewrite app_nil_r. reflexivity.
  - cbn [map fst distinct] in Hd. apply andb_true_iff in Hd as [Hk Hd].
    apply negb_true_iff in Hk.
    cbn [fold_left fst snd]. rewrite dict_set_fresh by (apply Hfresh; left; reflexivity).
    rewrite IH; [rewrite <- app_assoc; reflexivity|exact Hd|].
    intros k' Hin. rewrite map_app, existsb_app. cbn [map fst existsb].
    rewrite (Hfresh k') by (right; exact Hin). rewrite orb_false_r. cbn [orb].
    destruct (String.eqb k' k) eqn:E; [|reflexivity].
    apply String.eqb_eq in E. subst k'.
    assert (Hex : existsb (String.eqb k) (map fst pairs) = true).
    { apply existsb_exists. exists k. split; [exact Hin|apply String.eqb_refl]. }
    congruence.
Qed.

Lemma normalize_well_formed v : well_formed v = true -> normalize v = v.
Proof.
  induction v as [|b|n|l|s|items IH|items IH] using pyval_ind_nested;
    intros Hw; try reflexivity.
  - cbn [normalize well_formed] in *. f_equal.
    induction IH as [|x l Hx Hl IHl]; [reflexivity|].
    cbn [forallb] in Hw. apply andb_true_iff in Hw as [Hwx Hwl].
    cbn [map]. rewrite (Hx Hwx), (IHl Hwl). reflexivity.
  - cbn [normalize well_formed] in *. apply andb_true_iff in Hw as [Hd Hw]. f_equal.
    assert (Hmap : map (fun kv => (fst kv, normalize (snd kv))) items = items).
    { clear Hd. induction IH as [|[k x] l Hx Hl IHl]; [reflexivity|].
      cbn [forallb snd] in Hw. apply andb_true_iff in Hw as [Hwx Hwl].
      cbn [map fst snd] in *. rewrite (Hx Hwx), (IHl Hwl). reflexivity. }
    rewrite Hmap. rewrite dict_of_distinct_pairs; [reflexivity|exact Hd|].
    intros k _. reflexivity.
Qed.

(** ** Decoding what was encoded *)

Lemma loads_dumps v indent :
  well_formed v = true -> loads (dumps v indent) = inr v.
Proof.
  intros Hw. unfold loads, dumps.
  rewrite (skip_ws_value _ (iterencode_starts_value indent 0 v Hw)).
  pose proof (scan_once_iterencode indent v 0 ""
                (2 * String.length (iterencode indent 0 v) + 2) Hw ltac:(lia) eq_refl) as Hs.
  rewrite append_nil_r in Hs. rewrite Hs. cbn [skip_ws].
  rewrite (normalize_well_formed v Hw). reflexivity.
Qed.

End JsonRoundTrip.

(** With the reference codec every well-formed document is serialisable,
    so the round trip of C1 asks only for the marker and a successful
    write. *)
Lemma ref_json_serialisable (v : pyval) :
  RefJson.well_formed v = true -> serialisable v.
Proof. intros Hw. unfold serialisable. apply (loads_dumps v 2 Hw). Qed.

Lemma ref_write_then_read (w w' : world) (file_path : string) (d : pyval) :
  write_json_basis file_path d w = (inr tt, w') ->
  RefJson.well_formed (sort_basis_dict d) = true ->
  py_in marker (sort_basis_dict d) = inr true ->
  fst (read_json_basis file_path w') = inr (sort_basis_dict d).
Proof.
  intros Hwrite Hw Hm.
  rewrite (write_then_read w w' file_path d Hwrite);
    [reflexivity | apply ref_json_serialisable; exact Hw | exact Hm].
Qed.

(** * Further properties *)

(** ** The accessor *)



Section AccessorFacts.
Context `{Bz2} `{Json} `{Sort}.

Lemma Forall_readers (P : (string -> io pyval) -> Prop) :
  (forall check_bse, P (fun file_path => _read_plain_json file_path check_bse)) ->
  Forall P readers.
Proof.
  intros HP. unfold readers, checked_readers, unchecked_readers. cbn [app].
  repeat apply List.Forall_cons; try apply List.Forall_nil.
  - exact (HP true).
  - exact (HP true).
  - exact (HP false).
  - exact (HP false).
Qed.

Lemma Forall_checked_readers (P : (string -> io pyval) -> Prop) :
  P (fun file_path => _read_plain_json file_path true) -> Forall P checked_readers.
Proof.
  intros HP. unfold checked_readers.
  repeat apply List.Forall_cons; try apply List.Forall_nil; exact HP.
Qed.


Lemma Forall_writers (P : (string -> pyval -> io unit) -> Prop) :
  (forall sort : pyval -> pyval,
     P (fun file_path d => _write_plain_json file_path (sort d))) ->
  Forall P writers.
Proof.
  intros HP. unfold writers.
  repeat apply List.Forall_cons; try apply List.Forall_nil.
  - exact (HP sort_basis_dict).
  - exact (HP sort_references_dict).
Qed.

(** What a read does, by what lies at the path. *)
Lemma read_plain_cases w file_path check_bse :
  (isfile (files w) file_path = false
   /\ _read_plain_json file_path check_bse w
      = (inl (NotFoundError file_path), World (files w) (log w ++ [SysIsFile file_path])))
  \/ (exists data,
        files w !! file_path = Some (RegularFile data)
        /\ _read_plain_json file_path check_bse w
           = (outcome file_path check_bse data,
              World (files w) (log w ++ read_calls file_path))).
Proof.
  destruct (files w !! file_path) as [[data|]|] eqn:Hf.
  - right. exists data. split; [reflexivity|]. apply read_plain_present. exact Hf.
  - left. assert (Hisf : isfile (files w) file_path = false)
      by (unfold isfile; rewrite Hf; reflexivity).
    split; [exact Hisf|]. apply read_plain_missing. exact Hisf.
  - left. assert (Hisf : isfile (files w) file_path = false)
      by (unfold isfile; rewrite Hf; reflexivity).
    split; [exact Hisf|]. apply read_plain_missing. exact Hisf.
Qed.

Lemma read_notes_cases w file_path :
  (isfile (files w) file_path = false
   /\ read_notes_file file_path w
      = (inr None, World (files w) (log w ++ [SysIsFile file_path])))
  \/ (exists data,
        files w !! file_path = Some (RegularFile data)
        /\ read_notes_file file_path w
           = (notes_of data, World (files w) (log w ++ read_calls file_path))).
Proof.
  destruct (files w !! file_path) as [[data|]|] eqn:Hf.
  - right. exists data. split; [reflexivity|]. apply read_notes_present. exact Hf.
  - left. assert (Hisf : isfile (files w) file_path = false)
      by (unfold isfile; rewrite Hf; reflexivity).
    split; [exact Hisf|]. apply read_notes_missing. exact Hisf.
  - left. assert (Hisf : isfile (files w) file_path = false)
      by (unfold isfile; rewrite Hf; reflexivity).
    split; [exact Hisf|]. apply read_notes_missing. exact Hisf.
Qed.






Lemma notes_of_not_None data : notes_of data <> inr None.
Proof. unfold notes_of. destruct (text_mode data); discriminate. Qed.


(** X1.  Reading changes nothing: whatever the outcome, each of the four
    read entry points and the notes reader leaves every file as it was,
    and the only system calls it makes are the isfile probe, an open for
    reading and a read. *)
Theorem X1_readers_change_no_file (w : world) (file_path : string) :
  Forall (fun read : string -> io pyval =>
            files (snd (read file_path w)) = files w
            /\ exists calls,
                 log (snd (read file_path w)) = (log w ++ calls)%list
                 /\ forallb read_only calls = true)
         readers
  /\ files (snd (read_notes_file file_path w)) = files w
  /\ exists calls,
       log (snd (read_notes_file file_path w)) = (log w ++ calls)%list
       /\ forallb read_only calls = true.
Proof.
  split.
  - apply Forall_readers. intros c.
    destruct (read_plain_cases w file_path c) as [[_ ->]|(data & _ & ->)];
      cbn [snd files log]; (split; [reflexivity|]); eexists; split; reflexivity.
  - destruct (read_notes_cases w file_path) as [[_ ->]|(data & _ & ->)];
      cbn [snd files log]; (split; [reflexivity|]); eexists; split; reflexivity.
Qed.




(** X4.  A write overwrites: writing one document and then another at
    the same path, through either write entry point, leaves the file
    system that writing the second document alone leaves, with the same
    outcome.  Nothing of the earlier content remains. *)
Theorem X4_the_last_write_wins (w : world) (file_path : string) (d1 d2 : pyval) :
  Forall (fun first : string -> pyval -> io unit =>
     Forall (fun second : string -> pyval -> io unit =>
               let after := second file_path d2 (snd (first file_path d1 w)) in
               fst after = fst (second file_path d2 w)
               /\ files (snd after) = files (snd (second file_path d2 w)))
            writers)
         writers.
Proof.
  apply Forall_writers. intros sort1. apply Forall_writers. intros sort2. cbv zeta.
  destruct (write_plain_cases w file_path (sort1 d1)) as [(Hd1 & _ & Hf1)|(Hd1 & _ & Hf1)];
    destruct (write_plain_cases (snd (_write_plain_json file_path (sort1 d1) w))
                file_path (sort2 d2)) as [(Hd & -> & ->)|(Hd & -> & ->)];
    destruct (write_plain_cases w file_path (sort2 d2)) as [(Hd2 & -> & ->)|(Hd2 & -> & ->)];
    rewrite Hf1 in *; try contradiction.
  - split; reflexivity.
  - rewrite lookup_insert_eq in Hd. discriminate.
  - rewrite insert_insert_eq. split; reflexivity.
Qed.






(** X9.  Only JSONDecodeError is caught.  When turning the bytes of
    an existing file into text raises an exception, each of the four
    readers raises that very exception: it is not wrapped in the
    RuntimeError for malformed data, and it is not swallowed. *)
Theorem X9_a_decoding_error_is_raised_as_it_is
    (w : world) (file_path data : string) (e : exn) :
  files w !! file_path = Some (RegularFile data) ->
  text_of file_path data = inl e ->
  Forall (fun read : string -> io pyval => fst (read file_path w) = inl e) readers.
Proof.
  intros Hf Ht. apply Forall_readers. intros c.
  rewrite (read_plain_present _ _ _ _ Hf). unfold outcome. rewrite Ht. reflexivity.
Qed.

(** X10.  The marker test is Python's [in], so on a file whose JSON
    document is no mapping the checked readers do this: a list is accepted
    exactly when the marker string is one of its elements, and rejected as
    no BSE file otherwise; a string that contains the marker is accepted;
    null, a boolean or a number raises TypeError. *)
Theorem X10_the_marker_test_on_a_document_that_is_no_mapping
    (w : world) (file_path data text : string) (js : pyval) :
  files w !! file_path = Some (RegularFile data) ->
  text_of file_path data = inr text ->
  json_loads text = inr js ->
  Forall (fun read : string -> io pyval =>
            (forall items, js = PyList items ->
               (In (PyStr marker) items -> fst (read file_path w) = inr js)
               /\ (~ In (PyStr marker) items ->
                   fst (read file_path w) = inl (SchemaMismatchError file_path)))
            /\ (forall before after,
                  js = PyStr (before +:+ marker +:+ after) ->
                  fst (read file_path w) = inr js)
            /\ (js = PyNone \/ (exists b, js = PyBool b) \/ (exists n, js = PyInt n)
                \/ (exists literal, js = PyFloat literal) ->
                exists msg, fst (read file_path w) = inl (TypeError msg)))
         checked_readers.
Proof.
  intros Hf Ht Hj. apply Forall_checked_readers.
  rewrite (read_plain_present _ _ _ _ Hf). unfold outcome. rewrite Ht, Hj. cbn [fst].
  split; [|split].
  - intros items ->. cbn [py_in].
    assert (Hex : existsb (is_str marker) items = true <-> In (PyStr marker) items).
    { rewrite existsb_exists. split.
      - intros (x & Hx & Hs). destruct x; try discriminate.
        apply String.eqb_eq in Hs. subst. exact Hx.
      - intros Hin. exists (PyStr marker). split; [exact Hin|]. apply String.eqb_refl. }
    destruct (existsb (is_str marker) items).
    + split; [reflexivity|]. intros Hn. exfalso. apply Hn, Hex. reflexivity.
    + split; [|reflexivity]. intros Hin. apply Hex in Hin. discriminate.
  - intros before after ->. cbn [py_in]. rewrite str_contains_app. reflexivity.
  - intros [->|[[b ->]|[[n ->]|[l ->]]]]; cbn [py_in]; eexists; reflexivity.
Qed.

(** X11.  The marker check only ever turns a success into a failure.
    When a checked reader returns a document, the unchecked reader on the
    same path returns the same document after the same system calls; when
    an unchecked reader raises, the checked reader raises the same
    exception. *)
Theorem X11_a_checked_read_that_succeeds_is_the_unchecked_read
    (w : world) (file_path : string) :
  (forall js, fst (read_json_basis file_path w) = inr js ->
              read_schema file_path w = read_json_basis file_path w)
  /\ (forall js, fst (read_references file_path w) = inr js ->
                 read_metadata file_path w = read_references file_path w)
  /\ (forall e, fst (read_schema file_path w) = inl e ->
                read_json_basis file_path w = read_schema file_path w)
  /\ (forall e, fst (read_metadata file_path w) = inl e ->
                read_references file_path w = read_metadata file_path w).
Proof.
  unfold read_json_basis, read_references, read_schema, read_metadata.
  assert (Hup : forall js, fst (_read_plain_json file_path true w) = inr js ->
                  _read_plain_json file_path false w = _read_plain_json file_path true w).
  { intros js.
    destruct (read_plain_cases w file_path true) as [[Hm ->]|(data & Hf & ->)];
      [discriminate|].
    rewrite (read_plain_present _ _ false _ Hf). cbn [fst]. unfold outcome.
    destruct (text_of file_path data) as [e|text]; [discriminate|].
    destruct (json_loads text) as [msg|v]; [discriminate|].
    destruct (py_in marker v) as [e|[|]]; [discriminate| |discriminate].
    reflexivity. }
  assert (Hdown : forall e, fst (_read_plain_json file_path false w) = inl e ->
                    _read_plain_json file_path true w = _read_plain_json file_path false w).
  { intros e.
    destruct (read_plain_cases w file_path false) as [[Hm ->]|(data & Hf & ->)].
    - intros _. apply read_plain_missing. exact Hm.
    - rewrite (read_plain_present _ _ true _ Hf). cbn [fst]. unfold outcome.
      destruct (text_of file_path data) as [e'|text]; [reflexivity|].
      destruct (json_loads text) as [msg|v]; [reflexivity|discriminate]. }
  repeat split; assumption.
Qed.


(** X13.  The JSON readers and the notes reader use the same test for
    a missing file: the notes reader returns None exactly when the path is
    no regular file, and exactly then each of the four JSON readers raises
    its FileNotFoundError. *)
Theorem X13_the_readers_agree_on_what_is_missing (w : world) (file_path : string) :
  (fst (read_notes_file file_path w) = inr None <-> isfile (files w) file_path = false)
  /\ Forall (fun read : string -> io pyval =>
               fst (read file_path w) = inl (NotFoundError file_path)
               <-> fst (read_notes_file file_path w) = inr None)
            readers.
Proof.
  assert (Hn : fst (read_notes_file file_path w) = inr None
               <-> isfile (files w) file_path = false).
  { destruct (read_notes_cases w file_path) as [[Hm ->]|(data & Hf & ->)]; cbn [fst].
    - split; [intros _; exact Hm|reflexivity].
    - unfold isfile. rewrite Hf. split; [|discriminate].
      intros E. destruct (notes_of_not_None data E). }
  split; [exact Hn|].
  apply Forall_readers. intros c. rewrite Hn.
  destruct (read_plain_cases w file_path c) as [[Hm ->]|(data & Hf & ->)]; cbn [fst].
  - split; [intros _; exact Hm|reflexivity].
  - unfold isfile. rewrite Hf. split; [|discriminate].
    unfold outcome.
    destruct (text_of file_path data) as [e|text] eqn:Ht.
    + unfold text_of, decoded in Ht.
      destruct (endswith file_path ".bz2"); [|discriminate].
      destruct (bz2_decompress data); [discriminate|].
      injection Ht as <-. discriminate.
    + destruct (json_loads text) as [msg|v]; [discriminate|].
      destruct c; [|discriminate].
      destruct (py_in marker v) as [e|[|]] eqn:Hm; try discriminate.
      unfold py_in in Hm. destruct v; try discriminate; injection Hm as <-; discriminate.
Qed.

End AccessorFacts.

(** ** The classifier *)

Lemma endswith_trans s t u :
  endswith s t = true -> endswith t u = true -> endswith s u = true.
Proof.
  intros Hst Htu. induction s as [|c s IH]; cbn [endswith] in *.
  - rewrite orb_false_r in Hst. apply String.eqb_eq in Hst. subst t.
    cbn [endswith] in Htu. exact Htu.
  - apply orb_true_iff in Hst as [E|E].
    + apply String.eqb_eq in E. subst t. cbn [endswith] in Htu. exact Htu.
    + rewrite (IH E). apply orb_true_r.
Qed.

Lemma listed_spec_category basename :
  listed basename = match spec_category basename with Some _ => true | None => false end.
Proof.
  unfold listed, spec_category, reserved.
  destruct (String.eqb basename "METADATA.json" || String.eqb basename "REFERENCES.json");
    [reflexivity|]. cbn [negb andb].
  destruct (endswith basename ".metadata.json") eqn:E1;
    [apply (endswith_trans _ _ ".json" E1); reflexivity|].
  destruct (endswith basename ".table.json") eqn:E2;
    [apply (endswith_trans _ _ ".json" E2); reflexivity|].
  destruct (endswith basename ".element.json") eqn:E3;
    [apply (endswith_trans _ _ ".json" E3); reflexivity|].
  destruct (endswith basename ".json"); reflexivity.
Qed.

Lemma bucket_cons c f fs :
  bucket c (f :: fs)
  = if in_category c (snd f) then relative_path f :: bucket c fs else bucket c fs.
Proof. unfold bucket. cbn [List.filter]. destruct (in_category c (snd f)); reflexivity. Qed.

(** The four lists together are the listed files, each once. *)
Lemma buckets_permutation fs :
  Permutation (bucket Metadata fs ++ bucket Table fs
               ++ bucket Element fs ++ bucket Component fs)%list
              (map relative_path (List.filter (fun f => listed (snd f)) fs)).
Proof.
  induction fs as [|f fs IH]; [constructor|].
  rewrite !bucket_cons. cbn [List.filter].
  rewrite listed_spec_category. unfold in_category.
  destruct (spec_category (snd f)) as [[]|]; cbn [category_eqb map app].
  - constructor. exact IH.
  - apply Permutation_sym, Permutation_cons_app, Permutation_sym. exact IH.
  - apply Permutation_sym.
    rewrite app_assoc. apply Permutation_cons_app. rewrite <- app_assoc.
    apply Permutation_sym. exact IH.
  - apply Permutation_sym.
    rewrite !app_assoc. apply Permutation_cons_app. rewrite <- !app_assoc.
    apply Permutation_sym. exact IH.
  - exact IH.
Qed.

Lemma valid_file_entry_files e :
  forall dirs,
    valid_entry e = true -> Forall (fun x => valid_name x = true) dirs ->
    Forall valid_file (entry_files dirs e).
Proof.
  induction e as [n|n children IH] using entry_ind_nested; intros dirs Hv Hd.
  - constructor.
  - cbn [valid_entry] in Hv. apply andb_true_iff in Hv as [Hn Hc].
    assert (Hd' : Forall (fun x => valid_name x = true) (dirs ++ [n])%list)
      by (apply Forall_app; split; [exact Hd|constructor; [exact Hn|constructor]]).
    cbn [entry_files]. apply Forall_app. split.
    + apply List.Forall_forall. intros f Hf. apply in_map_iff in Hf as (b & <- & Hb).
      split; [exact Hd'|].
      pose proof (valid_file_names children Hc) as Hnames.
      rewrite List.Forall_forall in Hnames. apply Hnames. exact Hb.
    + clear Hn. induction IH as [|e l He Hl IHl]; [constructor|].
      cbn [forallb] in Hc. apply andb_true_iff in Hc as [Hve Hvl].
      cbn [flat_map]. apply Forall_app. split; [apply He; assumption|apply IHl; assumption].
Qed.

Lemma valid_file_tree_files tree :
  valid_tree tree = true -> Forall valid_file (tree_files tree).
Proof.
  intros Hv. unfold tree_files. apply Forall_app. split.
  - apply List.Forall_forall. intros f Hf. apply in_map_iff in Hf as (b & <- & Hb).
    split; [constructor|].
    pose proof (valid_file_names tree Hv) as Hnames.
    rewrite List.Forall_forall in Hnames. apply Hnames. exact Hb.
  - unfold valid_tree in Hv. induction tree as [|e l IHl]; [constructor|].
    cbn [forallb] in Hv. apply andb_true_iff in Hv as [Hve Hvl].
    cbn [flat_map]. apply Forall_app. split.
    + apply valid_file_entry_files; [exact Hve|constructor].
    + apply IHl. exact Hvl.
Qed.

(** Two files of valid names with the same relative path are the same. *)
Lemma relative_path_inj f g :
  valid_file f -> valid_file g -> relative_path f = relative_path g -> f = g.
Proof.
  intros [Hfd Hfb] [Hgd Hgb] E. apply (f_equal comps) in E.
  unfold relative_path in E.
  rewrite !comps_concat in E.
  - apply app_inj_tail in E as [E1 E2]. destruct f, g. cbn [fst snd] in *. congruence.
  - apply Forall_app. split.
    + eapply Forall_impl; [exact Hgd|]. intros x Hx. apply valid_name_good, Hx.
    + constructor; [apply valid_name_good, Hgb|constructor].
  - apply Forall_app. split.
    + eapply Forall_impl; [exact Hfd|]. intros x Hx. apply valid_name_good, Hx.
    + constructor; [apply valid_name_good, Hfb|constructor].
Qed.

(** X14.  The four lists together are exactly the files whose name ends
    in .json, the two reserved names apart, each file once: the three
    longer suffixes all end in .json, so the last test catches every JSON
    file the earlier ones let through. *)
Theorem X14_every_json_file_is_listed_once (cwd data_dir : string) (tree : list entry) :
  startswith cwd "/" = true ->
  valid_tree tree = true ->
  exists metas tables elements components,
    get_all_filelist cwd tree data_dir = inr (metas, tables, elements, components)
    /\ Permutation (metas ++ tables ++ elements ++ components)%list
         (map relative_path (List.filter (fun f => listed (snd f)) (tree_files tree)))
    /\ forall f,
         In f (tree_files tree) ->
         reserved (snd f) = false -> endswith (snd f) ".json" = true ->
         In (relative_path f) (metas ++ tables ++ elements ++ components)%list.
Proof.
  intros Hcwd Hv. do 4 eexists.
  split; [apply get_all_filelist_spec; assumption|].
  split; [apply buckets_permutation|].
  intros f Hf Hr Hj.
  eapply Permutation_in; [apply Permutation_sym, buckets_permutation|].
  apply in_map, List.filter_In. split; [exact Hf|].
  unfold listed. rewrite Hr, Hj. reflexivity.
Qed.

(** X15.  When no file occurs twice in the tree, no path occurs twice
    in the result, within one list or across two: different files have
    different relative paths. *)
Theorem X15_no_path_is_listed_twice (cwd data_dir : string) (tree : list entry) :
  startswith cwd "/" = true ->
  valid_tree tree = true ->
  List.NoDup (tree_files tree) ->
  exists metas tables elements components,
    get_all_filelist cwd tree data_dir = inr (metas, tables, elements, components)
    /\ List.NoDup (metas ++ tables ++ elements ++ components)%list.
Proof.
  intros Hcwd Hv Hnd. do 4 eexists.
  split; [apply get_all_filelist_spec; assumption|].
  eapply Permutation_NoDup; [apply Permutation_sym, buckets_permutation|].
  pose proof (valid_file_tree_files tree Hv) as Hvalid.
  rewrite List.Forall_forall in Hvalid.
  apply NoDup_map_NoDup_ForallPairs.
  - intros f g Hf Hg E.
    apply List.filter_In in Hf as [Hf _]. apply List.filter_In in Hg as [Hg _].
    apply relative_path_inj; auto.
  - apply List.NoDup_filter. exact Hnd.
Qed.

(** X16.  The result depends on the tree alone: the same tree under
    another dataset directory, given absolute or relative to another
    working directory, gives the same four lists. *)
Theorem X16_the_listing_does_not_depend_on_where_the_dataset_lies
    (cwd1 cwd2 data_dir1 data_dir2 : string) (tree : list entry) :
  startswith cwd1 "/" = true ->
  startswith cwd2 "/" = true ->
  valid_tree tree = true ->
  get_all_filelist cwd1 tree data_dir1 = get_all_filelist cwd2 tree data_dir2.
Proof.
  intros H1 H2 Hv. rewrite !get_all_filelist_spec by assumption. reflexivity.
Qed.

Lemma startswith_sep_app a b :
  String.eqb a "" = false -> startswith (a +:+ b) "/" = startswith a "/".
Proof.
  destruct a as [|c a]; [discriminate|]. intros _.
  change (String c a +:+ b) with (String c (a +:+ b)).
  rewrite !startswith_sep_cons. reflexivity.
Qed.

(** [join(data_dir, p)] for the relative path [p] of a file is the path
    the walk has for it. *)
Lemma path_join_relative_path data_dir names :
  names <> [] ->
  Forall (fun x => valid_name x = true) names ->
  path_join data_dir (String.concat "/" names) = joined data_dir names.
Proof.
  intros Hne Hn. destruct names as [|first rest]; [congruence|].
  pose proof (Forall_inv Hn) as Hfirst. pose proof (Forall_inv_tail Hn) as Hrest.
  destruct (valid_name_inv first Hfirst) as (Hf1 & _ & _ & Hf4).
  rewrite concat_sep_cons. unfold joined. cbn [fold_left].
  assert (Hj : path_join data_dir (first +:+ slash_all rest)
               = path_join data_dir first +:+ slash_all rest).
  { unfold path_join. rewrite (startswith_sep_app first _ Hf1).
    rewrite (valid_name_relative first Hfirst).
    destruct (String.eqb data_dir "" || endswith data_dir "/");
      rewrite ?append_assoc; reflexivity. }
  rewrite Hj. symmetry. apply fold_path_join_valid; [exact Hrest| |].
  - apply path_join_nonempty. exact Hf1.
  - unfold path_join. rewrite (valid_name_relative first Hfirst).
    destruct (String.eqb data_dir "" || endswith data_dir "/").
    + rewrite endswith_sep_app by exact Hf1. apply endswith_sep_free. exact Hf4.
    + rewrite <- append_assoc, endswith_sep_app by exact Hf1.
      apply endswith_sep_free. exact Hf4.
Qed.

(** X17.  The relative path is the inverse of the join the caller will
    make.  For a file reached through the directories [dirs], the path the
    classifier records is the relative path of the file, and joining the
    dataset directory with it gives the very path the walk had for the
    file. *)
Theorem X17_joining_the_root_with_a_listed_path_gives_back_the_file
    (cwd data_dir : string) (dirs : list string) (basename : string) :
  startswith cwd "/" = true ->
  Forall (fun x => valid_name x = true) dirs ->
  valid_name basename = true ->
  let root := joined data_dir dirs in
  relpath cwd (path_join root basename) data_dir = inr (relative_path (dirs, basename))
  /\ path_join data_dir (relative_path (dirs, basename)) = path_join root basename.
Proof.
  intros Hcwd Hd Hb root. subst root.
  assert (Hn : Forall (fun x => valid_name x = true) (dirs ++ [basename])%list)
    by (apply Forall_app; split; [exact Hd|constructor; [exact Hb|constructor]]).
  assert (Hne : (dirs ++ [basename])%list <> []) by (destruct dirs; discriminate).
  rewrite <- joined_snoc. split.
  - apply relpath_below_start; assumption.
  - apply path_join_relative_path; assumption.
Qed.

Lemma entry_files_cons n e :
  forall dirs,
    entry_files (n :: dirs) e = map (fun f => (n :: fst f, snd f)) (entry_files dirs e).
Proof.
  induction e as [b|m children IH] using entry_ind_nested; intros dirs; [reflexivity|].
  cbn [entry_files]. rewrite map_app, map_map. cbn [fst snd app]. f_equal.
  induction IH as [|e l He Hl IHl]; [reflexivity|].
  cbn [flat_map]. rewrite map_app, He, IHl. reflexivity.
Qed.

Lemma tree_files_subdirectory n children :
  tree_files [DirEntry n children]
  = map (fun f => (n :: fst f, snd f)) (tree_files children).
Proof.
  unfold tree_files. cbn [file_names flat_map map app entry_files].
  rewrite app_nil_r, !map_app, map_map. cbn [fst snd]. f_equal.
  induction children as [|e l IHl]; [reflexivity|].
  cbn [flat_map]. rewrite map_app, IHl, <- entry_files_cons. reflexivity.
Qed.

Lemma relative_path_cons n dirs basename :
  relative_path (n :: dirs, basename) = below n (relative_path (dirs, basename)).
Proof.
  unfold relative_path, below. cbn [fst snd app].
  destruct dirs; reflexivity.
Qed.

Lemma bucket_subdirectory c n fs :
  bucket c (map (fun f => (n :: fst f, snd f)) fs) = map (below n) (bucket c fs).
Proof.
  unfold bucket. induction fs as [|[dirs b] fs IH]; [reflexivity|].
  cbn [map List.filter fst snd].
  destruct (in_category c b); cbn [map]; rewrite IH; [|reflexivity].
  rewrite relative_path_cons. reflexivity.
Qed.

(** X18.  Listing is compositional: the listing of a directory that
    holds nothing but one sub-directory is the listing of that
    sub-directory, taken as the dataset directory, with the name of the
    sub-directory and a slash put before every path. *)
Theorem X18_the_listing_of_a_directory_that_holds_one_directory
    (cwd data_dir n : string) (children : list entry) :
  startswith cwd "/" = true ->
  valid_name n = true ->
  valid_tree children = true ->
  exists metas tables elements components,
    get_all_filelist cwd children (path_join data_dir n)
    = inr (metas, tables, elements, components)
    /\ get_all_filelist cwd [DirEntry n children] data_dir
       = inr (map (below n) metas, map (below n) tables,
              map (below n) elements, map (below n) components).
Proof.
  intros Hcwd Hn Hv. do 4 eexists.
  split; [apply get_all_filelist_spec; assumption|].
  rewrite get_all_filelist_spec;
    [|exact Hcwd|unfold valid_tree in *; cbn [forallb valid_entry]; rewrite Hn, Hv; reflexivity].
  rewrite tree_files_subdirectory, !bucket_subdirectory. reflexivity.
Qed.

(** ** The reference codec *)

Section ReferenceCodec.
Context `{Bz2} `{Sort}.


End ReferenceCodec.

(** ** The claims on concrete inputs *)



(** C4 on a path at which nothing exists. *)
Lemma C4_witness :
  fst (read_json_basis "missing.json" empty_world)
  = inl (FileNotFoundError
           "JSON file 'missing.json' does not exist, is not readable, or is not a file")
  /\ fst (read_metadata "missing.json" empty_world)
     = fst (read_json_basis "missing.json" empty_world).
Proof.
  destruct (C4_missing_path_raises_NotFoundError empty_world "missing.json")
    as (Hb & _ & _ & Hm); [reflexivity|].
  rewrite Hb, Hm. split; reflexivity.
Defined.

(** C5 fails as stated: a file that exists and holds no valid JSON, under
    a path ending in .bz2, makes the readers raise the OSError of the
    decompressor, not the malformed-data error. *)
Lemma C5_counterexample_not_a_bz2_stream :
  isfile (files (one_file "basis.json.bz2" "not json")) "basis.json.bz2" = true
  /\ json_loads "not json" = inl "Expecting value"
  /\ fst (read_json_basis "basis.json.bz2" (one_file "basis.json.bz2" "not json"))
     = inl (OSError "Invalid data stream")
  /\ fst (read_schema "basis.json.bz2" (one_file "basis.json.bz2" "not json"))
     = inl (OSError "Invalid data stream").
Proof. vm_compute. repeat split. Qed.

(** The amended C5 on a plain file that holds no valid JSON. *)
Lemma C5_witness :
  fst (read_schema "basis.json" (one_file "basis.json" "{ not json"))
  = inl (RuntimeError "File basis.json contains JSON errors"
           (Some (JSONDecodeError "Expecting value"))).
Proof.
  destruct (C5_malformed_text_raises_MalformedDataError
              (one_file "basis.json" "{ not json") "basis.json"
              "{ not json" "{ not json" "Expecting value")
    as ((_ & Hs & _) & _); [reflexivity | reflexivity | vm_compute; reflexivity |].
  exact Hs.
Defined.

(** C2 fails as stated: 42 is valid JSON and has no marker key, yet the
    marker-checked readers raise a TypeError, not the schema-mismatch
    error. *)
Lemma C2_counterexample_top_level_number :
  json_loads "42" = inr (PyInt 42)
  /\ fst (read_schema "schema.json" (one_file "schema.json" "42")) = inr (PyInt 42)
  /\ fst (read_json_basis "schema.json" (one_file "schema.json" "42"))
     = inl (TypeError "argument of type 'int' is not iterable")
  /\ fst (read_references "schema.json" (one_file "schema.json" "42"))
     = inl (TypeError "argument of type 'int' is not iterable").
Proof. vm_compute. repeat split. Qed.

(** The amended C2 on a file that holds a marked document. *)
Lemma C2_witness :
  let text := json_dumps marked_document 2 in
  fst (read_json_basis "basis.json" (one_file "basis.json" text)) = inr marked_document
  /\ fst (read_schema "basis.json" (one_file "basis.json" text)) = inr marked_document.
Proof.
  intros text.
  destruct (C2_marker_key_decides_the_checked_readers
              (one_file "basis.json" text) "basis.json" text text
              [("name", PyStr "sto-3g");
               (marker, PyDict [("schema_type", PyStr "component")])])
    as (Hs & _ & _ & Hyes);
    [apply lookup_singleton_eq | reflexivity | vm_compute; reflexivity |].
  destruct Hyes as [Hb _]; [reflexivity|].
  split; assumption.
Defined.

(** C3 on the tree of the spec's example. *)
Lemma C3_witness :
  get_all_filelist "/home/user" example_tree "data"
  = inr (["c.metadata.json"], ["b.table.json"],
         ["a.element.json"; "sub/e.element.json"], ["d.json"]).
Proof.
  destruct (C3_first_matching_suffix_decides_the_category "/home/user" "data" example_tree)
    as (_ & Hlists & _); [reflexivity | reflexivity |].
  rewrite Hlists. reflexivity.
Defined.

(** C7 on a reserved name three directories down, and on the tree of
    the spec's example under a dataset directory given relative to the
    working directory. *)
Lemma C7_witness :
  classify "/srv" "../bse/data/" "../bse/data/deep/er" (FileLists ["m"] [] [] [])
           "REFERENCES.json"
  = inr (FileLists ["m"] [] [] [])
  /\ get_all_filelist "/srv" example_tree "../bse/data/"
     = inr (["c.metadata.json"], ["b.table.json"],
            ["a.element.json"; "sub/e.element.json"], ["d.json"]).
Proof.
  destruct (C7_reserved_names_are_skipped_and_paths_are_relative
              "/srv" "../bse/data/" example_tree)
    as (Hskip & _ & _ & Hexample); [reflexivity | reflexivity |].
  split; [apply Hskip | exact Hexample].
Defined.

(** C9 on the name x.element.json.bz2. *)
Lemma C9_witness :
  classify "/home/user" "data" "data" (FileLists [] [] [] []) "x.element.json.bz2"
  = inr (FileLists [] [] [] []).
Proof.
  destruct (C9_compressed_names_are_in_no_category "/home/user" "data" "x.element.json.bz2")
    as (Hskip & _); [reflexivity|].
  apply Hskip.
Defined.

(** C8 fails as stated: a file is not always returned as it stands.
    Text mode turns a carriage return before a line feed into the line
    feed alone, and bytes that are not UTF-8 make the reader raise. *)
Lemma C8_counterexample_carriage_return :
  let data := String "a"%char (String CR (String LF "b")) in
  isfile (files (one_file "notes.txt" data)) "notes.txt" = true
  /\ fst (read_notes_file "notes.txt" (one_file "notes.txt" data))
     = inr (Some (String "a"%char (String LF "b")))
  /\ String "a"%char (String LF "b") <> data
  /\ fst (read_notes_file "notes.txt" (one_file "notes.txt" (String "255"%char "")))
     = inl (UnicodeDecodeError "'utf-8' codec can't decode bytes").
Proof. vm_compute. repeat split. discriminate. Qed.

(** The amended C8 on a file that holds a word with a two-byte letter
    and a line feed. *)
Lemma C8_witness :
  let data := "caf" +:+ String "195"%char (String "169"%char (String LF "")) in
  fst (read_notes_file "notes.txt" (one_file "notes.txt" data)) = inr (Some data).
Proof.
  intros data.
  destruct (C8_notes_reader_returns_None_or_the_content
              (one_file "notes.txt" data) "notes.txt") as (_ & _ & Hsame & _).
  apply Hsame; [apply lookup_singleton_eq | reflexivity | reflexivity].
Defined.

(** ** The further properties on concrete inputs *)






(** X9 on a file that is no bz2 stream. *)
Lemma X9_witness :
  fst (read_metadata "METADATA.json.bz2" (one_file "METADATA.json.bz2" "{}"))
  = inl (OSError "Invalid data stream").
Proof.
  pose proof (X9_a_decoding_error_is_raised_as_it_is
                (one_file "METADATA.json.bz2" "{}") "METADATA.json.bz2" "{}"
                (OSError "Invalid data stream")
                (lookup_singleton_eq _ _) eq_refl) as Hall.
  rewrite List.Forall_forall in Hall. apply Hall. cbn. tauto.
Defined.

(** X10 on a file that holds a list with the marker string in it. *)
Lemma X10_witness :
  let text := json_dumps (PyList [PyInt 1; PyStr marker]) 2 in
  fst (read_json_basis "basis.json" (one_file "basis.json" text))
  = inr (PyList [PyInt 1; PyStr marker]).
Proof.
  intros text.
  assert (Hall := X10_the_marker_test_on_a_document_that_is_no_mapping
                    (one_file "basis.json" text) "basis.json" text text
                    (PyList [PyInt 1; PyStr marker])).
  apply List.Forall_inv in Hall;
    [|apply lookup_singleton_eq | reflexivity | vm_compute; reflexivity].
  destruct Hall as (Hlist & _).
  destruct (Hlist _ eq_refl) as [Hyes _]. apply Hyes. cbn. tauto.
Defined.


(** X14 on the tree of the spec's example. *)
Lemma X14_witness :
  exists metas tables elements components,
    get_all_filelist "/home/user" example_tree "data"
    = inr (metas, tables, elements, components)
    /\ In "sub/e.element.json" (metas ++ tables ++ elements ++ components)%list
    /\ length (metas ++ tables ++ elements ++ components)%list = 5.
Proof.
  destruct (X14_every_json_file_is_listed_once "/home/user" "data" example_tree)
    as (metas & tables & elements & components & Hg & Hp & Hin);
    [reflexivity | reflexivity |].
  exists metas, tables, elements, components. split; [exact Hg|]. split.
  - apply (Hin (["sub"], "e.element.json")); [cbn; tauto | reflexivity | reflexivity].
  - rewrite (Permutation_length Hp). reflexivity.
Defined.

(** X15 on two files of the same name in two directories. *)
Lemma X15_witness :
  exists metas tables elements components,
    get_all_filelist "/home/user" [FileEntry "a.json"; DirEntry "sub" [FileEntry "a.json"]]
                     "data"
    = inr (metas, tables, elements, components)
    /\ List.NoDup (metas ++ tables ++ elements ++ components)%list.
Proof.
  apply X15_no_path_is_listed_twice; [reflexivity | reflexivity |].
  cbn. constructor; [|constructor; [|constructor]].
  - cbn. intros [E|[]]. discriminate E.
  - intros [].
Defined.

(** X16 on the tree of the spec's example. *)
Lemma X16_witness :
  get_all_filelist "/home/user" example_tree "data"
  = get_all_filelist "/" example_tree "/srv/bse/data/".
Proof.
  apply X16_the_listing_does_not_depend_on_where_the_dataset_lies; reflexivity.
Defined.

(** X17 on a file one directory down. *)
Lemma X17_witness :
  relpath "/home/user" "data/sub/e.element.json" "data" = inr "sub/e.element.json"
  /\ path_join "data" "sub/e.element.json" = "data/sub/e.element.json".
Proof.
  apply (X17_joining_the_root_with_a_listed_path_gives_back_the_file
           "/home/user" "data" ["sub"] "e.element.json");
    [reflexivity | constructor; [reflexivity|constructor] | reflexivity].
Defined.

(** X18 on the sub-directory of the spec's example. *)
Lemma X18_witness :
  get_all_filelist "/srv" [DirEntry "sub" [FileEntry "e.element.json"]] "data"
  = inr ([], [], ["sub/e.element.json"], []).
Proof.
  destruct (X18_the_listing_of_a_directory_that_holds_one_directory
              "/srv" "data" "sub" [FileEntry "e.element.json"])
    as (metas & tables & elements & components & Hsub & ->);
    [reflexivity | reflexivity | reflexivity |].
  assert (E : get_all_filelist "/srv" [FileEntry "e.element.json"] (path_join "data" "sub")
              = inr ([], [], ["e.element.json"], [])) by (vm_compute; reflexivity).
  rewrite E in Hsub. injection Hsub as <- <- <- <-. reflexivity.
Defined.

